(** * Streaming metrics aggregation of odeon-landcover

    A shallow embedding of the confusion-matrix / calibration aggregation
    engine ([odeon/commons/metric/metrics_multiclass.py],
    [odeon/scripts/metrics_binary.py]) and of the bit-depth handling of
    [odeon/commons/statistics.py], together with the properties the
    specification states about them.

    Numbers.  Probabilities, weights, confusion-matrix cells and metrics are
    numpy floats in the source; they are modelled by the rationals [Q], so
    the sums and quotients of the scan are exact, as they are in the source
    on pixel counts.  Pixel counts that stay Python integers are in [Z].
    The weighted rows of the macro report are rounded to two decimals, and
    what is rounded there is a double: these rows are computed on binary64
    numbers ([PrimFloat]), with the IEEE operations.  A quotient of exact
    numbers whose divisor is zero has no numeric value (numpy gives nan or
    inf, plain Python raises): such a table entry is [None].

    Failure.  Code that can raise (an index out of range, a negative bin
    index given to [np.bincount], operands of different shapes, a missing
    dictionary key) returns [option], [None] standing for the exception. *)

From Stdlib Require Import QArith Qround Lqa Ascii.
From Stdlib Require Floats.
From stdpp Require Import base option list strings gmap.

(** ** Arrays

    A 1-D array is a list, an (H, W) array a list of rows, an (H, W, C)
    array a list of rows of pixels, each pixel the list of its channels. *)

Abbreviation array1 := (list Q).
Abbreviation array2 := (list (list Q)).
Abbreviation array3 := (list (list (list Q))).
Abbreviation matrix := (list (list Q)).

Module Np.

(** [a.flatten()] of a 2-D array, row-major. *)
Definition flatten {A} (a : list (list A)) : list A := concat a.

(** [np.sum] of a 1-D array and of a 2-D array. *)
Definition sum (a : array1) : Q := foldr Qplus 0%Q a.
Definition sum2 (a : array2) : Q := sum (flatten a).

(** [np.zeros(n)] and [np.zeros([r, c])]. *)
Definition zeros (n : nat) : array1 := replicate n 0%Q.
Definition zeros2 (r c : nat) : array2 := replicate r (zeros c).

Definition count {A} (f : A → bool) (l : list A) : nat :=
  length (List.filter f l).

(** [np.count_nonzero]. *)
Definition count_nonzero (a : array1) : Z :=
  Z.of_nat (count (λ x, negb (Qeq_bool x 0)) a).

(** [a[:, :, i]]: channel [i] of every pixel; an index error when a pixel
    has no such channel. *)
Definition channel (i : nat) (a : array3) : option array2 :=
  mapM (mapM (λ px : list Q, px !! i)) a.

(** [cm[i, :]], [cm[:, i]] and [cm[i, j]]. *)
Definition row (i : nat) (cm : matrix) : option array1 := cm !! i.
Definition column (i : nat) (cm : matrix) : option array1 :=
  mapM (λ r : list Q, r !! i) cm.
Definition item (i j : nat) (cm : matrix) : option Q :=
  r ← cm !! i; r !! j.

(** [a += b] on 1-D and 2-D arrays of the same shape; operands of
    different shapes raise. *)
Definition iadd (a b : array1) : option array1 :=
  if decide (length a = length b) then Some (zip_with Qplus a b) else None.

Fixpoint iadd2 (a b : array2) : option array2 :=
  match a, b with
  | [], [] => Some []
  | x :: a', y :: b' =>
      r ← iadd x y; rest ← iadd2 a' b'; Some (r :: rest)
  | _, _ => None
  end.

(** [a * w] for a scalar [w]. *)
Definition scale2 (w : Q) (a : array2) : array2 := map (map (λ x, x * w)%Q) a.

(** The bin edges increase monotonically (not necessarily strictly): what
    [np.histogram] checks before counting. *)
Fixpoint monotonic (bins : list Q) : bool :=
  match bins with
  | lo :: ((hi :: _) as tl) => Qle_bool lo hi && monotonic tl
  | _ => true
  end.

(** Counts of [np.histogram(a, bins)[0]]: bin [k] holds the values in
    [[bins[k], bins[k+1])], the last bin is closed on the right. *)
Fixpoint hist_counts (a : array1) (bins : list Q) : array1 :=
  match bins with
  | lo :: ((hi :: rest) as tl) =>
      let in_bin x :=
        Qle_bool lo x &&
        (match rest with
         | [] => Qle_bool x hi
         | _ => negb (Qle_bool hi x)
         end) in
      inject_Z (Z.of_nat (count in_bin a)) :: hist_counts a tl
  | _ => []
  end.

(** [np.histogram(a, bins=bins)[0]] for a sequence of edges. *)
Definition histogram (a : array1) (bins : list Q) : option array1 :=
  match bins with
  | [] => None
  | _ => if monotonic bins then Some (hist_counts a bins) else None
  end.

(** [np.digitize(x, bins)] for increasing edges: the number of edges
    that are [<= x] (the index [i] with [bins[i-1] <= x < bins[i]]). *)
Definition digitize1 (bins : list Q) (x : Q) : Z :=
  Z.of_nat (count (λ e, Qle_bool e x) bins).
Definition digitize (a : array1) (bins : list Q) : list Z :=
  map (digitize1 bins) a.

(** [np.bincount(ids, weights, minlength)]: cell [k] sums the weights of
    the positions whose id is [k] (weight 1 without [weights]).  A
    negative id raises, as does a weight array of another length. *)
Definition bincount_at (ids : list Z) (ws : array1) (k : nat) : Q :=
  sum (snd <$> List.filter (λ p : Z * Q, Z.eqb (fst p) (Z.of_nat k)) (zip ids ws)).

Definition bincount (ids : list Z) (weights : option array1) (minlength : nat)
  : option array1 :=
  if forallb (λ z, Z.leb 0 z) ids then
    let ws := default (replicate (length ids) 1%Q) weights in
    if decide (length ws = length ids) then
      let n := max minlength (Z.to_nat (foldr Z.max (-1)%Z ids + 1)) in
      Some (map (bincount_at ids ws) (seq 0 n))
    else None
  else None.

(** [a[mask]] with a boolean mask: the cells under a [true], in order;
    a mask of another length raises. *)
Definition select (mask : list bool) (a : array1) : option array1 :=
  if decide (length mask = length a)
  then Some (fst <$> List.filter snd (zip a mask))
  else None.

(** Element-wise [a / b] on arrays of the same length. *)
Definition divide (a b : array1) : array1 := zip_with Qdiv a b.

(** Rounding to the nearest integer, halves to the even neighbour
    ([np.rint]). *)
Definition rint (x : Q) : Z :=
  let f := Qfloor x in
  let r := (x - inject_Z f)%Q in
  match (r ?= 1 # 2)%Q with
  | Lt => f
  | Gt => (f + 1)%Z
  | Eq => if Z.even f then f else (f + 1)%Z
  end.

(** Rounding of an exact number to [decimals] decimal places, halves to
    the even neighbour: the value Python's [round(x, decimals)] has on an
    exact [x]. *)
Definition round (x : Q) (decimals : nat) : Q :=
  let p := inject_Z (10 ^ Z.of_nat decimals) in
  (inject_Z (rint (x * p)) / p)%Q.

(** *** Doubles

    The report tables are rounded doubles: what is rounded is the binary64
    result of a product, a sum and a quotient, not the exact number.  The
    values they are computed from are therefore binary64 numbers, with the
    IEEE operations (round to nearest, ties to even). *)

Abbreviation float := PrimFloat.float.

(** The double a Python [int] becomes in an operation with a float: the
    nearest one. *)
Definition float_of_int (z : Z) : float :=
  FloatOps.SF2Prim
    (SpecFloat.binary_normalize FloatOps.prec FloatOps.emax z 0 false).

(** The double held for a number the model knows exactly: numerator over
    denominator, which is the nearest double when both are below 2^53, as
    the quotient of two pixel counts is. *)
Definition float64 (x : Q) : float :=
  PrimFloat.div (float_of_int (Qnum x)) (float_of_int (Z.pos (Qden x))).

(** [np.rint] of a double: the nearest integer, halves to the even one;
    a double of magnitude 2^52 or more is an integer, and the sign of the
    argument is kept. *)
Definition rint64 (x : float) : float :=
  let two52 := float_of_int (2 ^ 52) in
  let nearest y :=
    if PrimFloat.ltb y two52
    then PrimFloat.sub (PrimFloat.add y two52) two52 else y in
  if PrimFloat.eqb x PrimFloat.zero then x
  else if PrimFloat.ltb x PrimFloat.zero
       then PrimFloat.opp (nearest (PrimFloat.opp x))
       else nearest x.

(** [np.round(x, decimals)] (numpy's [around]) of a double, for
    [decimals >= 0]: [np.rint(x * 10**decimals) / 10**decimals]. *)
Definition around (x : float) (decimals : nat) : float :=
  let f := float_of_int (10 ^ Z.of_nat decimals) in
  PrimFloat.div (rint64 (PrimFloat.mul x f)) f.

End Np.

(** ** The [Metrics] base class

    [odeon/commons/metric/metrics.py] defines the helpers both scanners
    inherit; they are stated here as the specification gives them. *)

Module Metrics.

(** Modelled from the spec: [Metrics.metrics_names] is missing; section
    4.3 fixes the order of the metric table, FPR last. *)
Definition metrics_names : list string :=
  ["Accuracy"; "Precision"; "Recall"; "Specificity"; "F1-Score"; "IoU";
   "Dice"; "FPR"].

Record metric_table := {
  Accuracy : Q;
  Precision : Q;
  Recall : Q;
  Specificity : Q;
  F1_Score : Q;
  IoU : Q;
  Dice : Q;
  FPR : Q;
}.

(** [list(table.values())], in the order of [metrics_names]. *)
Definition values (t : metric_table) : list Q :=
  [Accuracy t; Precision t; Recall t; Specificity t; F1_Score t; IoU t;
   Dice t; FPR t].

(** [table[name]]; a key error for an unknown name. *)
Definition get (name : string) (t : metric_table) : option Q :=
  (list_to_map (zip metrics_names (values t)) : gmap string Q) !! name.

(** The zero-guard policy of section 4.3: a quotient whose denominator is
    exactly 0 is 0. *)
Definition guarded_div (num den : Q) : Q :=
  if Qeq_bool den 0 then 0%Q else (num / den)%Q.

(** Modelled from the spec: [Metrics.get_metrics_from_obs] is missing;
    the formulas are the table of section 4.3, each under the zero
    guard. *)
Definition get_metrics_from_obs (tp fn fp tn : Q) : metric_table :=
  let precision := guarded_div tp (tp + fp) in
  let recall := guarded_div tp (tp + fn) in
  {| Accuracy := guarded_div (tp + tn) (tp + fn + fp + tn);
     Precision := precision;
     Recall := recall;
     Specificity := guarded_div tn (tn + fp);
     F1_Score := guarded_div (2 * precision * recall) (precision + recall);
     IoU := guarded_div tp (tp + fn + fp);
     Dice := guarded_div (2 * tp) (2 * tp + fn + fp);
     FPR := guarded_div fp (fp + tn) |}.

(** The denominator of each metric, in the order of [metrics_names]. *)
Definition denominators (tp fn fp tn : Q) : list Q :=
  [ (tp + fn + fp + tn)%Q; (tp + fp)%Q; (tp + fn)%Q; (tn + fp)%Q;
    (guarded_div tp (tp + fp) + guarded_div tp (tp + fn))%Q;
    (tp + fn + fp)%Q; (2 * tp + fn + fp)%Q; (fp + tn)%Q ].

(** Modelled from the spec: [Metrics.binarize] is missing.  Mode
    "binary" (section 4.1): element-wise [prediction > threshold]. *)
Definition binarize_binary (prediction : array2) (threshold : Q) : array2 :=
  map (map (λ p, if Qle_bool p threshold then 0%Q else 1%Q)) prediction.

(** [np.argmax] of one pixel: the first index holding the maximum. *)
Fixpoint argmax_from (best_i : nat) (best : Q) (i : nat) (l : list Q) : nat :=
  match l with
  | [] => best_i
  | x :: l' =>
      if Qle_bool x best then argmax_from best_i best (S i) l'
      else argmax_from i x (S i) l'
  end.

Definition argmax (l : list Q) : nat :=
  match l with
  | [] => 0
  | x :: l' => argmax_from 0 x 1 l'
  end.

(** Modelled from the spec: [Metrics.binarize] is missing.  Mode
    "multiclass" (section 4.1): arg-max over the last axis of the mask
    and of the prediction, ties to the lowest index; the class indices
    are returned as numbers. *)
Definition binarize_multiclass (prediction mask : array3) : array2 * array2 :=
  let labels := map (map (λ px, inject_Z (Z.of_nat (argmax px)))) in
  (labels mask, labels prediction).

(** Modelled from the spec: [Metrics.get_confusion_matrix] is missing.
    Section 4.2: co-occurrence counts, row = true class, column =
    predicted class, over the class indices [0 .. nbr_class - 1]; with
    [revert_order] the indices are taken in decreasing order, which for
    two classes is [[tp, fn], [fp, tn]]. *)
Definition get_confusion_matrix (y_true y_pred : array1) (nbr_class : nat)
    (revert_order : bool) : matrix :=
  let labels := if revert_order then reverse (seq 0 nbr_class)
                else seq 0 nbr_class in
  let has l x := Qeq_bool x (inject_Z (Z.of_nat l)) in
  map (λ r, map (λ c,
         inject_Z (Z.of_nat
           (Np.count (λ p : Q * Q, has r (fst p) && has c (snd p))
                     (zip y_true y_pred))))
       labels) labels.

(** Modelled from the spec: [Metrics.to_prob_range] is missing.  Section
    3: the values are divided by the maximum representable value of the
    bit depth. *)
Definition to_prob_range (max_value : Q) (a : array2) : array2 :=
  map (map (λ v, v / max_value)%Q) a.

End Metrics.

(** ** Python control flow and pandas access *)

Module Py.

(** A [for] loop whose body may raise: the state is threaded through the
    iterations, the first exception ends the loop. *)
Fixpoint for_each {S A} (body : S → A → option S) (l : list A) (s : S)
  : option S :=
  match l with
  | [] => Some s
  | x :: l' => s' ← body s x; for_each body l' s'
  end.

(** [enumerate(l)]. *)
Fixpoint enumerate_from {A} (n : nat) (l : list A) : list (nat * A) :=
  match l with
  | [] => []
  | x :: l' => (n, x) :: enumerate_from (S n) l'
  end.
Definition enumerate {A} (l : list A) : list (nat * A) := enumerate_from 0 l.

(** [l[:-1]]. *)
Definition but_last {A} (l : list A) : list A := take (length l - 1) l.

(** ['_'.join(s.split(' '))]: every space becomes an underscore. *)
Fixpoint underscored (s : string) : string :=
  match s with
  | EmptyString => EmptyString
  | String a s' =>
      String (if Ascii.eqb a " "%char then "_"%char else a) (underscored s')
  end.

(** [d[k] += v] on a dictionary of arrays and on one of integers; a key
    error when [k] is missing. *)
Definition dict_iadd (k : string) (v : array1) (d : gmap string (list Q))
  : option (gmap string (list Q)) :=
  old ← d !! k; new ← Np.iadd old v; Some (<[k := new]> d).

Definition dict_iadd_int (k : string) (v : Z) (d : gmap string Z)
  : option (gmap string Z) :=
  old ← d !! k; Some (<[k := (old + v)%Z]> d).

(** [{k: v for k in keys}]. *)
Definition dict_from_keys {V} (keys : list string) (v : V) : gmap string V :=
  list_to_map ((λ k, (k, v)) <$> keys).

(** The position of a label among the labels of a dataframe axis; [None]
    (a key error) when it is absent. *)
Definition get_loc (labels : list string) (label : string) : option nat :=
  fst <$> list_find (λ l, l = label) labels.

(** [sum(d.values())] on a dictionary of integers. *)
Definition sum_values (d : gmap string Z) : Z :=
  map_fold (λ _ v acc, (v + acc)%Z) 0%Z d.

End Py.

(** ** [Metrics_Multiclass] *)

Module Metrics_Multiclass.
Import Metrics.

(** One item of the dataset. *)
Record sample := { mask : array3; pred : array3; name_file : string }.

(** The attributes the constructor sets and the scan only reads. *)
Record config := {
  class_labels : list string;
  threshold : Q;
  threshold_range : list Q;
  bins : list Q;
  in_prob_range : bool;
  max_pixel_value : Q;          (* depth_dict[bit_depth] *)
  weighted : bool;
  weights : list Q;
  get_metrics_per_patch : bool;
}.

(** Modelled from the spec: [self.nbr_class] is set by the missing base
    class; section 3 fixes it to the number of class labels. *)
Definition nbr_class (c : config) : nat := length (class_labels c).

(** A cell of [df_dataset]: a file name or a number; an absent cell is
    NaN. *)
Inductive cell := Str (s : string) | Num (x : Q).

(** A cell of the [cms_one_class] dataframe: a 2x2 matrix during the
    scan, the metrics derived from it afterwards. *)
Inductive cm_cell := CM (cm : matrix) | Raw (m : metric_table).

Record vects := {
  vect_Recall : list Q; vect_FPR : list Q; vect_Precision : list Q }.

(** The attributes [scan_dataset] creates or mutates. *)
Record state := {
  df_dataset : gmap (nat * string) cell;
  cms_one_class : list (list cm_cell);   (* rows: thresholds, columns: classes *)
  dict_prob_true : gmap string (list Q);
  dict_prob_pred : gmap string (list Q);
  dict_hist_counts : gmap string (list Q);
  dict_bin_sums : gmap string (list Q);
  dict_bin_true : gmap string (list Q);
  dict_bin_total : gmap string (list Q);
  counts_sample_per_class : gmap string Z;
  vect_classes : gmap string vects;
}.

Record obs := { tp : Q; fn : Q; fp : Q; tn : Q }.

(** The dictionary built for class index [i] at line 299. *)
Definition obs_of_class (cm : matrix) (i : nat) : option obs :=
  cii ← Np.item i i cm;
  row ← Np.row i cm;
  col ← Np.column i cm;
  Some {| tp := cii;
          fn := (Np.sum row - cii)%Q;
          fp := (Np.sum col - cii)%Q;
          tn := (Np.sum2 cm - Np.sum row - Np.sum col + cii)%Q |}.

Definition get_obs_by_class_from_cm (c : config) (cm : matrix)
  : option (gmap string obs) :=
  Py.for_each
    (λ obs_by_class '(i, class_i),
       o ← obs_of_class cm i; Some (<[class_i := o]> obs_by_class))
    (Py.enumerate (class_labels c)) ∅.

Definition cm_of_obs (o : obs) : matrix := [[tp o; fn o]; [fp o; tn o]].

Definition metrics_of_obs (o : obs) : metric_table :=
  get_metrics_from_obs (tp o) (fn o) (fp o) (tn o).

(** [get_metrics_from_obs(cm[0][0], cm[0][1], cm[1][0], cm[1][1])]. *)
Definition metrics_of_cm (cm : matrix) : option metric_table :=
  a ← Np.item 0 0 cm; b ← Np.item 0 1 cm;
  c ← Np.item 1 0 cm; d ← Np.item 1 1 cm;
  Some (get_metrics_from_obs a b c d).

(** Element-wise sum of two matrices of the same shape. *)
Definition add2 (a b : matrix) : matrix := zip_with (zip_with Qplus) a b.

(** [np.sum(cms_classes, axis=0)] on an array of shape (n, 2, 2). *)
Definition sum_axis0 (cms : list matrix) : matrix :=
  foldr add2 (Np.zeros2 2 2) cms.

Definition get_metrics_from_cm (c : config) (cm_macro : matrix)
  : option (gmap string metric_table * metric_table * list matrix * matrix) :=
  obs_by_class ← get_obs_by_class_from_cm c cm_macro;
  per_class ← mapM (λ class_i, obs_by_class !! class_i) (class_labels c);
  let cms_classes := cm_of_obs <$> per_class in
  let metrics_by_class :=
    foldl (λ d '(class_i, o), <[class_i := metrics_of_obs o]> d) ∅
          (zip (class_labels c) per_class) in
  cm_micro ←
    (if weighted c then
       Py.for_each
         (λ cm_micro '(k, weight),
            cm_k ← cms_classes !! k; Np.iadd2 cm_micro (Np.scale2 weight cm_k))
         (zip (seq 0 (nbr_class c)) (weights c)) (Np.zeros2 2 2)
     else Some (sum_axis0 cms_classes));
  metrics_micro ← metrics_of_cm cm_micro;
  Some (metrics_by_class, metrics_micro, cms_classes, cm_micro).

(** *** The per-patch row (lines 213-236) *)

Definition column_name (label metric : string) : string :=
  Py.underscored label +:+ "_" +:+ metric.

Definition headline : list string := ["Precision"; "Recall"; "F1-Score"; "IoU"].

Definition read_num (df : gmap (nat * string) cell) (k : nat * string)
  : option Q :=
  match df !! k with Some (Num x) => Some x | _ => None end.

Definition patch_row (c : config) (dataset_index : nat) (name : string)
    (cm : matrix) (df : gmap (nat * string) cell)
  : option (gmap (nat * string) cell) :=
  '(metrics_by_class, metrics_micro, _, _) ← get_metrics_from_cm c cm;
  let df := <[(dataset_index, "name_file") := Str name]> df in
  let df := <[(dataset_index, "OA") := Num (Precision metrics_micro)]> df in
  let df := <[(dataset_index, "micro_IoU") := Num (IoU metrics_micro)]> df in
  df ← Py.for_each
         (λ df label,
            Py.for_each
              (λ df name_column,
                 m ← metrics_by_class !! label;
                 v ← get name_column m;
                 Some (<[(dataset_index, column_name label name_column)
                         := Num v]> df))
              (Py.but_last metrics_names) df)
         (class_labels c) df;
  Py.for_each
    (λ df metric,
       mean_metric ←
         Py.for_each
           (λ mean_metric '(class_name, weight),
              x ← read_num df (dataset_index, column_name class_name metric);
              Some (mean_metric + weight * x)%Q)
           (zip (class_labels c) (weights c)) 0%Q;
       let mean := (mean_metric / inject_Z (Z.of_nat (nbr_class c)))%Q in
       let df := <[(dataset_index, "mean_" +:+ metric) := Num mean]> df in
       Some (if bool_decide (metric ∈ headline)
             then <[(dataset_index, "macro_" +:+ metric) := Num mean]> df
             else df))
    (Py.but_last metrics_names) df.

(** *** The scan (lines 163-280) *)

(** [cell += cr_cm] on a cell holding a matrix. *)
Definition cell_iadd (cr_cm : matrix) (x : cm_cell) : option cm_cell :=
  match x with
  | CM cm => CM <$> Np.iadd2 cm cr_cm
  | Raw _ => None
  end.

(** [df.loc[threshold, class_i] += cr_cm] on the dataframe whose index is
    [index] and whose columns are [columns]: the cells whose row label
    equals the threshold and whose column label is the class. *)
Definition loc_iadd (index : list Q) (columns : list string)
    (threshold : Q) (class_i : string) (cr_cm : matrix)
    (df : list (list cm_cell)) : option (list (list cm_cell)) :=
  mapM (λ '(row_label, row),
          if Qeq_bool row_label threshold then
            mapM (λ '(column_label, x),
                    if String.eqb column_label class_i
                    then cell_iadd cr_cm x else Some x)
                 (zip columns row)
          else Some row)
       (zip index df).

(** What the threshold loop threads: the local [cm_macro] and the
    attributes. *)
Definition loop_state : Type := matrix * state.

(** Lines 246-257: the calibration sums of one class for one sample. *)
Definition calibration_update (c : config) (i : nat) (class_i : string)
    (s : sample) (st : state) : option state :=
  pred_hist ← Np.channel i (pred s);
  mask_hist ← Np.channel i (mask s);
  let pred_hist :=
    if in_prob_range c then pred_hist
    else to_prob_range (max_pixel_value c) pred_hist in
  h ← Np.histogram (Np.flatten pred_hist) (bins c);
  hist_counts ← Py.dict_iadd class_i h (dict_hist_counts st);
  let binids := (λ z, z - 1)%Z <$> Np.digitize (Np.flatten pred_hist) (bins c) in
  b ← Np.bincount binids (Some (Np.flatten pred_hist)) (length (bins c));
  bin_sums ← Py.dict_iadd class_i b (dict_bin_sums st);
  b ← Np.bincount binids (Some (Np.flatten mask_hist)) (length (bins c));
  bin_true ← Py.dict_iadd class_i b (dict_bin_true st);
  b ← Np.bincount binids None (length (bins c));
  bin_total ← Py.dict_iadd class_i b (dict_bin_total st);
  Some {| df_dataset := df_dataset st;
          cms_one_class := cms_one_class st;
          dict_prob_true := dict_prob_true st;
          dict_prob_pred := dict_prob_pred st;
          dict_hist_counts := hist_counts;
          dict_bin_sums := bin_sums;
          dict_bin_true := bin_true;
          dict_bin_total := bin_total;
          counts_sample_per_class := counts_sample_per_class st;
          vect_classes := vect_classes st |}.

(** The joint confusion matrix of one sample, by arg-max (lines 208-209). *)
Definition joint_cm (c : config) (s : sample) : matrix :=
  let '(mask_macro, pred_macro) := binarize_multiclass (pred s) (mask s) in
  get_confusion_matrix (Np.flatten mask_macro) (Np.flatten pred_macro)
                       (nbr_class c) false.

(** Lines 205-236: the work guarded by
    [threshold == self.threshold and i == 0]. *)
Definition macro_update (c : config) (dataset_index : nat) (s : sample)
    (ls : loop_state) : option loop_state :=
  let '(cm_macro, st) := ls in
  let cm := joint_cm c s in
  cm_macro ← Np.iadd2 cm_macro cm;
  df ← (if get_metrics_per_patch c
        then patch_row c dataset_index (name_file s) cm (df_dataset st)
        else Some (df_dataset st));
  Some (cm_macro,
        {| df_dataset := df;
           cms_one_class := cms_one_class st;
           dict_prob_true := dict_prob_true st;
           dict_prob_pred := dict_prob_pred st;
           dict_hist_counts := dict_hist_counts st;
           dict_bin_sums := dict_bin_sums st;
           dict_bin_true := dict_bin_true st;
           dict_bin_total := dict_bin_total st;
           counts_sample_per_class := counts_sample_per_class st;
           vect_classes := vect_classes st |}).

(** Lines 194-202: the one-vs-rest work done for every threshold. *)
Definition one_vs_rest_update (c : config) (i : nat) (class_i : string)
    (s : sample) (threshold : Q) (st : state) : option state :=
  class_mask ← Np.channel i (mask s);
  class_pred ← Np.channel i (pred s);
  counts ← Py.dict_iadd_int class_i
              (Np.count_nonzero (Np.flatten class_mask))
              (counts_sample_per_class st);
  let bin_pred := binarize_binary class_pred threshold in
  let cr_cm := get_confusion_matrix (Np.flatten class_mask)
                                    (Np.flatten bin_pred) 2 true in
  cms ← loc_iadd (threshold_range c) (class_labels c) threshold class_i
                 cr_cm (cms_one_class st);
  Some {| df_dataset := df_dataset st;
          cms_one_class := cms;
          dict_prob_true := dict_prob_true st;
          dict_prob_pred := dict_prob_pred st;
          dict_hist_counts := dict_hist_counts st;
          dict_bin_sums := dict_bin_sums st;
          dict_bin_true := dict_bin_true st;
          dict_bin_total := dict_bin_total st;
          counts_sample_per_class := counts;
          vect_classes := vect_classes st |}.

(** The body of [for threshold in self.threshold_range] (lines 194-257). *)
Definition threshold_body (c : config) (dataset_index : nat) (s : sample)
    (i : nat) (class_i : string) (ls : loop_state) (threshold : Q)
  : option loop_state :=
  let '(cm_macro, st) := ls in
  st ← one_vs_rest_update c i class_i s threshold st;
  '(cm_macro, st) ←
    (if Qeq_bool threshold (Metrics_Multiclass.threshold c) && Nat.eqb i 0
     then macro_update c dataset_index s (cm_macro, st)
     else Some (cm_macro, st));
  st ← (if Qeq_bool threshold (Metrics_Multiclass.threshold c)
        then calibration_update c i class_i s st
        else Some st);
  Some (cm_macro, st).

Definition class_body (c : config) (dataset_index : nat) (s : sample)
    (ls : loop_state) (ic : nat * string) : option loop_state :=
  Py.for_each (threshold_body c dataset_index s ic.1 ic.2)
              (threshold_range c) ls.

Definition sample_body (c : config) (ls : loop_state) (ds : nat * sample)
  : option loop_state :=
  Py.for_each (class_body c ds.1 ds.2) (Py.enumerate (class_labels c)) ls.

(** Lines 175-187: the accumulators are created afresh; [df_dataset] and
    [vect_classes] are what the object holds. *)
Definition alloc (c : config) (self : state) : option loop_state :=
  hist ← (match class_labels c, bins c with
          | _ :: _, [] => None
          | _, _ => Some (Np.zeros (length (bins c) - 1))
          end);
  let zs := Np.zeros (length (bins c)) in
  Some (Np.zeros2 (nbr_class c) (nbr_class c),
        {| df_dataset := df_dataset self;
           cms_one_class :=
             replicate (length (threshold_range c))
               (replicate (length (class_labels c)) (CM (Np.zeros2 2 2)));
           dict_prob_true := ∅;
           dict_prob_pred := ∅;
           dict_hist_counts := Py.dict_from_keys (class_labels c) hist;
           dict_bin_sums := Py.dict_from_keys (class_labels c) zs;
           dict_bin_true := Py.dict_from_keys (class_labels c) zs;
           dict_bin_total := Py.dict_from_keys (class_labels c) zs;
           counts_sample_per_class := Py.dict_from_keys (class_labels c) 0%Z;
           vect_classes := vect_classes self |}).

(** Lines 175-257: allocation and the loop over the dataset. *)
Definition scan_loop (c : config) (self : state) (dataset : list sample)
  : option loop_state :=
  ls ← alloc c self;
  Py.for_each (sample_body c) (Py.enumerate dataset) ls.

(** Lines 259-263: every cell becomes the metrics of its matrix. *)
Definition applymap_metrics (df : list (list cm_cell))
  : option (list (list cm_cell)) :=
  mapM (mapM (λ x, match x with
                   | CM cm => Raw <$> metrics_of_cm cm
                   | Raw _ => None
                   end)) df.

(** [df.loc[:, class_j]]: the column labelled [class_j]. *)
Definition loc_column (columns : list string) (class_j : string)
    (df : list (list cm_cell)) : option (list cm_cell) :=
  j ← Py.get_loc columns class_j;
  mapM (λ row : list cm_cell, row !! j) df.

(** Lines 266-272: the calibration curve of one class. *)
Definition calibration_curve (bin_true bin_sums bin_total : array1)
  : option (array1 * array1) :=
  let nonzero := (λ x, negb (Qeq_bool x 0)) <$> bin_total in
  t ← Np.select nonzero bin_true;
  n ← Np.select nonzero bin_total;
  s ← Np.select nonzero bin_sums;
  Some (Np.divide t n, Np.divide s n).

(** The body of [for class_j in self.class_labels] (lines 266-279). *)
Definition finalize_class (c : config) (st : state) (class_j : string)
  : option state :=
  bin_total ← dict_bin_total st !! class_j;
  bin_true ← dict_bin_true st !! class_j;
  bin_sums ← dict_bin_sums st !! class_j;
  '(prob_true, prob_pred) ← calibration_curve bin_true bin_sums bin_total;
  col ← loc_column (class_labels c) class_j (cms_one_class st);
  raws ← mapM (λ x, match x with Raw m => Some m | CM _ => None end) col;
  let v := {| vect_Recall := Recall <$> raws;
              vect_FPR := FPR <$> raws;
              vect_Precision := Precision <$> raws |} in
  Some {| df_dataset := df_dataset st;
          cms_one_class := cms_one_class st;
          dict_prob_true := <[class_j := prob_true]> (dict_prob_true st);
          dict_prob_pred := <[class_j := prob_pred]> (dict_prob_pred st);
          dict_hist_counts := dict_hist_counts st;
          dict_bin_sums := dict_bin_sums st;
          dict_bin_true := dict_bin_true st;
          dict_bin_total := dict_bin_total st;
          counts_sample_per_class := counts_sample_per_class st;
          vect_classes := <[class_j := v]> (vect_classes st) |}.

(** Lines 259-280. *)
Definition finalize (c : config) (st : state) : option state :=
  cms ← applymap_metrics (cms_one_class st);
  Py.for_each (finalize_class c)
    (class_labels c)
    {| df_dataset := df_dataset st;
       cms_one_class := cms;
       dict_prob_true := dict_prob_true st;
       dict_prob_pred := dict_prob_pred st;
       dict_hist_counts := dict_hist_counts st;
       dict_bin_sums := dict_bin_sums st;
       dict_bin_true := dict_bin_true st;
       dict_bin_total := dict_bin_total st;
       counts_sample_per_class := counts_sample_per_class st;
       vect_classes := ∅ |}.

(** [scan_dataset]: the object after the scan and the returned macro
    confusion matrix. *)
Definition scan_dataset (c : config) (self : state) (dataset : list sample)
  : option (state * matrix) :=
  '(cm_macro, st) ← scan_loop c self dataset;
  st ← finalize c st;
  Some (st, cm_macro).

(** *** The report tables (lines 346-377) *)

(** [df_report_classes]: one row per index label, in order; a row that
    was never assigned is NaN ([None]). *)
Definition report_rows : Type := list (string * option (list Q)).

(** [df.loc[label] = vals]: every row with that label, or a new last row
    when there is none. *)
Definition loc_set_row (label : string) (vals : option (list Q))
    (df : report_rows) : report_rows :=
  if bool_decide (label ∈ df.*1)
  then (λ r, if String.eqb r.1 label then (label, vals) else r) <$> df
  else df ++ [(label, vals)].

(** [df.loc[label, metric]] with the columns [metrics_names[:-1]]: the
    cell of the first row with that label; [None] when the row or the
    column is missing or the cell is NaN. *)
Definition loc_cell (label metric : string) (df : report_rows) : option Q :=
  '(_, r) ← list_find (λ r, r.1 = label) df;
  vals ← r.2;
  j ← Py.get_loc (Py.but_last metrics_names) metric;
  vals !! j.

(** [df.mean()]: the mean of every column over the rows that are not
    NaN; NaN when there is no such row. *)
Definition mean (df : report_rows) : option (list Q) :=
  let rows := omap snd df in
  match rows with
  | [] => None
  | _ =>
      Some ((λ j, Np.sum (omap (λ r : list Q, r !! j) rows)
                  / inject_Z (Z.of_nat (length rows)))%Q
            <$> seq 0 (length (Py.but_last metrics_names)))
  end.

(** [df.loc[row, column] = v] on a table of numbers; storing a missing
    value leaves the cell empty. *)
Definition set_cell {V} (k : string * string) (v : option V)
    (df : gmap (string * string) V) : gmap (string * string) V :=
  match v with Some x => <[k := x]> df | None => delete k df end.

(** [np.round(num / den, decimals=2)] for a running sum [num], a double,
    and an integer [den]: the quotient of doubles, then the rounding of
    that double. *)
Definition round_div (num : Np.float) (den : Z) : Np.float :=
  Np.around (PrimFloat.div num (Np.float_of_int den)) 2.

(** The macro table holds doubles; the other two tables are kept with the
    exact values of their cells. *)
Record reports := {
  df_report_classes : report_rows;
  df_report_macro : gmap (string * string) Np.float;
  df_report_micro : gmap (string * string) Q;
}.

(** The two running sums of lines 361-367 for one metric, in doubles:
    the cell of a class is the double of its metric, the counter an
    integer, the weight the double of the user's number; both sums start
    from the integer 0. *)
Definition weighted_sums (c : config) (st : state) (df_classes : report_rows)
    (metric : string) : option (Np.float * Np.float) :=
  Py.for_each
    (λ '(weighted_avg, user_weighted_avg) '(i, class_i),
       x ← loc_cell class_i metric df_classes;
       n ← counts_sample_per_class st !! class_i;
       let weighted_avg :=
         PrimFloat.add weighted_avg
                       (PrimFloat.mul (Np.float64 x) (Np.float_of_int n)) in
       if weighted c
       then w ← weights c !! i;
            Some (weighted_avg,
                  PrimFloat.add user_weighted_avg
                                (PrimFloat.mul (Np.float64 x) (Np.float64 w)))
       else Some (weighted_avg, user_weighted_avg))
    (Py.enumerate (class_labels c)) (Np.float_of_int 0, Np.float_of_int 0).

Definition metrics_to_df_reports (c : config) (st : state)
    (metrics_by_class : gmap string metric_table)
    (metrics_micro : metric_table) : option reports :=
  df_classes ←
    Py.for_each
      (λ df class_i,
         m ← metrics_by_class !! class_i;
         Some (loc_set_row class_i (Some (Py.but_last (values m))) df))
      (class_labels c) ((λ l, (l, None)) <$> class_labels c);
  let df_classes := loc_set_row "Overall" (mean df_classes) df_classes in
  let df_macro :=
    foldl (λ df metric,
             set_cell ("Average", metric)
                      (Np.float64 <$> loc_cell "Overall" metric df_classes) df)
          ∅ headline in
  let total_positive_obs := Py.sum_values (counts_sample_per_class st) in
  df_macro ←
    Py.for_each
      (λ df metric,
         '(weighted_avg, user_weighted_avg) ←
           weighted_sums c st df_classes metric;
         (* without a class both sums are still the integer 0, and so is
            the total: the quotient of integers raises ZeroDivisionError *)
         if bool_decide (class_labels c = []) then None
         else
           let df :=
             <[("Weighted avg", metric) :=
                 round_div weighted_avg total_positive_obs]> df in
           Some (if weighted c
                 then <[("User weighted avg", metric) :=
                          round_div user_weighted_avg
                                    (Z.of_nat (nbr_class c))]> df
                 else df))
      headline df_macro;
  Some {| df_report_classes := df_classes;
          df_report_macro := df_macro;
          df_report_micro :=
            <[("Values", "IoU") := IoU metrics_micro]>
              (<[("Values", "OA") := Precision metrics_micro]> ∅) |}.

(** *** [run] (lines 124-136) *)

Record result := {
  final : state;
  cm_macro : matrix;
  metrics_by_class : gmap string metric_table;
  metrics_micro : metric_table;
  cms_classes : list matrix;
  cm_micro : matrix;
  tables : reports;
}.


(** A freshly constructed object: every per-patch cell is NaN, the
    attributes of the scan do not exist yet. *)
Definition fresh : state :=
  {| df_dataset := ∅; cms_one_class := [];
     dict_prob_true := ∅; dict_prob_pred := ∅; dict_hist_counts := ∅;
     dict_bin_sums := ∅; dict_bin_true := ∅; dict_bin_total := ∅;
     counts_sample_per_class := ∅; vect_classes := ∅ |}.

End Metrics_Multiclass.

(** ** [Metrics_Binary] *)

Module Metrics_Binary.
Import Metrics.

(** The attributes the constructor sets. *)
Record config := {
  masks : list array2;
  preds : list array2;
  nbr_class : nat;
  threshold : Q;
  threshold_range : list Q;
  bins : list Q;
  in_prob_range : bool;
  max_pixel_value : Q;          (* depth_dict[bit_depth] *)
}.

(** The four local accumulators of lines 54-57. *)
Record calibration := {
  hist_counts : array1;
  bin_sums : array1;
  bin_true : array1;
  bin_total : array1;
}.

(** [self.cms], a dictionary keyed by the threshold value, and
    [self.df_thresholds], one row per position of the threshold range
    holding the threshold and, once computed, its metrics. *)
Record tables := {
  cms : list (Q * matrix);
  df_thresholds : list (Q * option metric_table);
}.

(** [d[k]] and [d[k] = v] on a dictionary keyed by numbers. *)
Definition dict_get (k : Q) (d : list (Q * matrix)) : option matrix :=
  snd <$> List.find (λ e, Qeq_bool e.1 k) d.

Definition dict_set (k : Q) (v : matrix) (d : list (Q * matrix))
  : list (Q * matrix) :=
  if List.existsb (λ e, Qeq_bool e.1 k) d
  then (λ e, if Qeq_bool e.1 k then (e.1, v) else e) <$> d
  else d ++ [(k, v)].

(** [tp, fn, fp, tn = cm.ravel()], then the metrics (lines 100-102);
    the unpacking raises unless the matrix has exactly four cells. *)
Definition get_metrics_from_cm (cm : matrix) : option metric_table :=
  match Np.flatten cm with
  | [tp; fn; fp; tn] => Some (get_metrics_from_obs tp fn fp tn)
  | _ => None
  end.

(** Lines 71-84: the calibration sums of one sample. *)
Definition calibration_update (c : config) (mask pred : array2)
    (cal : calibration) : option calibration :=
  let pred_hist :=
    if in_prob_range c then pred else to_prob_range (max_pixel_value c) pred in
  h ← Np.histogram (Np.flatten pred_hist) (bins c);
  hist_counts ← Np.iadd (hist_counts cal) h;
  let binids := (λ z, z - 1)%Z <$> Np.digitize (Np.flatten pred_hist) (bins c) in
  b ← Np.bincount binids (Some (Np.flatten pred_hist)) (length (bins c));
  bin_sums ← Np.iadd (bin_sums cal) b;
  b ← Np.bincount binids (Some (Np.flatten mask)) (length (bins c));
  bin_true ← Np.iadd (bin_true cal) b;
  b ← Np.bincount binids None (length (bins c));
  bin_total ← Np.iadd (bin_total cal) b;
  Some {| hist_counts := hist_counts; bin_sums := bin_sums;
          bin_true := bin_true; bin_total := bin_total |}.

(** The body of [for mask, pred in zip(self.masks, self.preds)]
    (lines 63-84).  The confusion matrix is built with the default
    orientation [[tp, fn], [fp, tn]] that [get_metrics_from_cm]
    unpacks. *)
Definition sample_body (c : config) (threshold : Q)
    (st : list (Q * matrix) * calibration) (mp : array2 * array2)
  : option (list (Q * matrix) * calibration) :=
  let '(cms, cal) := st in
  let '(mask, pred) := mp in
  let pred_cm := binarize_binary pred threshold in
  let cm := get_confusion_matrix (Np.flatten mask) (Np.flatten pred_cm)
                                 (nbr_class c) true in
  old ← dict_get threshold cms;
  new ← Np.iadd2 old cm;
  let cms := dict_set threshold new cms in
  first ← threshold_range c !! 0;
  cal ← (if Qeq_bool threshold first
         then calibration_update c mask pred cal
         else Some cal);
  Some (cms, cal).

(** The body of [for threshold in self.threshold_range] (lines 60-89). *)
Definition threshold_body (c : config) (st : tables * calibration)
    (threshold : Q) : option (tables * calibration) :=
  let '(t, cal) := st in
  let cms := dict_set threshold (Np.zeros2 (nbr_class c) (nbr_class c)) (cms t) in
  '(cms, cal) ← Py.for_each (sample_body c threshold)
                            (zip (masks c) (preds c)) (cms, cal);
  cm ← dict_get threshold cms;
  cr_metrics ← get_metrics_from_cm cm;
  Some ({| cms := cms;
           df_thresholds :=
             (λ r : Q * option metric_table,
                if Qeq_bool r.1 threshold then (r.1, Some cr_metrics) else r)
             <$> df_thresholds t |},
        cal).

(** Lines 54-57. *)
Definition alloc (c : config) : option calibration :=
  match bins c with
  | [] => None
  | _ =>
      Some {| hist_counts := Np.zeros (length (bins c) - 1);
              bin_sums := Np.zeros (length (bins c));
              bin_true := Np.zeros (length (bins c));
              bin_total := Np.zeros (length (bins c)) |}
  end.

(** [create_data_for_metrics]: an empty dictionary and the threshold
    column. *)
Definition create_data_for_metrics (c : config) : tables :=
  {| cms := []; df_thresholds := (λ t, (t, None)) <$> threshold_range c |}.

(** Lines 54-89: the accumulators when the threshold loop ends. *)
Definition threshold_loop (c : config) : option (tables * calibration) :=
  cal ← alloc c;
  Py.for_each (threshold_body c) (threshold_range c)
              (create_data_for_metrics c, cal).

Record result := {
  final : tables;
  accumulated : calibration;
  out_hist_counts : option array1;       (* NaN cells when the sum is 0 *)
  prob_true : array1;
  prob_pred : array1;
  df_report_metrics : list Q;
}.

(** Lines 91-98. *)
Definition get_metrics_by_threshold (c : config) : option result :=
  '(t, cal) ← threshold_loop c;
  let total := Np.sum (hist_counts cal) in
  let nonzero := (λ x, negb (Qeq_bool x 0)) <$> bin_total cal in
  tr ← Np.select nonzero (bin_true cal);
  n ← Np.select nonzero (bin_total cal);
  s ← Np.select nonzero (bin_sums cal);
  report ←
    (match List.filter (λ r : Q * option metric_table,
                          Qeq_bool r.1 (threshold c)) (df_thresholds t) with
     | [(_, Some m)] => Some (Py.but_last (values m))
     | _ => None
     end);
  Some {| final := t;
          accumulated := cal;
          out_hist_counts :=
            if Qeq_bool total 0 then None
            else Some ((λ x, x / total)%Q <$> hist_counts cal);
          prob_true := Np.divide tr n;
          prob_pred := Np.divide s n;
          df_report_metrics := report |}.

End Metrics_Binary.

(** ** [Statistics]: the bit depth of the constructor *)

Module Statistics.

Definition BATCH_SIZE : Z := 1.
Definition NUM_WORKERS : Z := 1.
Definition BIT_DEPTH : string := "8 bits".
Definition NBR_BINS : nat := 10.

(** [self.depth_dict] (lines 86-90). *)
Definition depth_dict : gmap string Z :=
  list_to_map [("keep", 1%Z); ("8 bits", 255%Z); ("12 bits", 4095%Z);
               ("14 bits", 16383%Z); ("16 bits", 65535%Z)].

(** The attributes set by lines 79-110. *)
Record t := {
  bit_depth : string;
  nbr_bins : nat;
  bins : list Q;
  norm_bins : list Q;
  batch_size : Z;
  num_workers : Z;
  nbr_batches : Z;
}.

Definition warning : string :=
  "WARNING: the pixel depth input in the configuration file is not correct.".

(** Lines 92-98: the tag kept, and the warnings logged. *)
Definition resolve_bit_depth (tag : string) : string * list string :=
  if bool_decide (tag ∈ dom depth_dict) then (tag, [])
  else (BIT_DEPTH, [warning]).

(** [self.depth_dict[self.bit_depth]]: the divisor every later
    computation uses; a key error for a tag outside the dictionary. *)
Definition max_pixel_value (tag : string) : option Z := depth_dict !! tag.

(** [get_bins] (lines 126-147). *)
Definition get_bins (tag : string) (nbr_bins : nat) (bins : option (list Q))
  : option (list Q * list Q) :=
  m ← max_pixel_value tag;
  let max_value := inject_Z m in
  let bins :=
    match bins with
    | Some b => b
    | None =>
        ((λ i, Np.round
                 (inject_Z (Z.of_nat i) / inject_Z (Z.of_nat nbr_bins)
                  * max_value) 3)%Q <$> seq 0 nbr_bins) ++ [max_value]
    end in
  if Qeq_bool max_value 0 then
    match bins with [] => Some (bins, []) | _ => None end
  else Some (bins, (λ x, Np.round (x / max_value) 3)%Q <$> bins).

(** [to_pixel_input_range] (lines 311-325). *)
Definition to_pixel_input_range (self : t) (value : Q) : option Q :=
  m ← max_pixel_value (bit_depth self); Some (value * inject_Z m)%Q.

(** Lines 79-110 of [__init__]: the object and the warnings logged, or
    the exception of the batch-size assertion. *)
Definition init (dataset_len : nat) (bins : option (list Q)) (nbr_bins : nat)
    (tag : string) (batch_size num_workers : Z) : option (t * list string) :=
  let '(bit_depth, log) := resolve_bit_depth tag in
  '(bins, norm_bins) ← get_bins bit_depth nbr_bins bins;
  let n := Z.of_nat dataset_len in
  if negb (batch_size <=? n)%Z then None
  else if (batch_size =? 0)%Z then None
  else
    let nbr_batches :=
      if (n mod batch_size =? 0)%Z then (n / batch_size)%Z
      else (n / batch_size + 1)%Z in
    Some ({| bit_depth := bit_depth; nbr_bins := nbr_bins; bins := bins;
             norm_bins := norm_bins; batch_size := batch_size;
             num_workers := num_workers; nbr_batches := nbr_batches |},
          log).

End Statistics.

(** ** Vocabulary of the specification

    The quantities the properties below are stated with. *)

Module Spec.
Import Metrics Metrics_Multiclass.

(** An [n] x [n] matrix. *)
Definition square (n : nat) (cm : matrix) : Prop :=
  length cm = n ∧ Forall (λ r : list Q, length r = n) cm.

(** The sum of the diagonal of a matrix. *)
Definition trace (cm : matrix) : Q :=
  Np.sum (omap (λ i, Np.item i i cm) (seq 0 (length cm))).

(** Cell [k] of an accumulator. *)
Definition nth0 (a : array1) (k : nat) : Q := default 0%Q (a !! k).

(** The bins that received at least one observation, in increasing
    order. *)
Definition nonzero_bins (bin_total : array1) : list nat :=
  List.filter (λ b, negb (Qeq_bool (nth0 bin_total b) 0))
              (seq 0 (length bin_total)).

(** The calibration curve of an accumulated mass: the mass of every
    non-empty bin over the count of that bin. *)
Definition curve (mass bin_total : array1) : array1 :=
  (λ b, nth0 mass b / nth0 bin_total b)%Q <$> nonzero_bins bin_total.

(** The observations of class [i], in terms of the row, the column and the
    diagonal cell. *)
Definition obs_at (cm : matrix) (i : nat) : obs :=
  let cii := nth0 (default [] (cm !! i)) i in
  let row := Np.sum (default [] (cm !! i)) in
  let col := Np.sum ((λ r : list Q, nth0 r i) <$> cm) in
  {| tp := cii; fn := (row - cii)%Q; fp := (col - cii)%Q;
     tn := (Np.sum2 cm - row - col + cii)%Q |}.

(** What the scan leaves for a class: the three accumulators, of one
    length, and the two curves derived from them. *)
Definition curve_of (st : state) (class_j : string) : Prop :=
  ∃ bin_true bin_sums bin_total,
    dict_bin_true st !! class_j = Some bin_true
    ∧ dict_bin_sums st !! class_j = Some bin_sums
    ∧ dict_bin_total st !! class_j = Some bin_total
    ∧ length bin_true = length bin_total
    ∧ length bin_sums = length bin_total
    ∧ dict_prob_true st !! class_j = Some (curve bin_true bin_total)
    ∧ dict_prob_pred st !! class_j = Some (curve bin_sums bin_total).

(** How many thresholds of a range equal [x]. *)
Definition occurrences (x : Q) (l : list Q) : nat :=
  Np.count (λ y, Qeq_bool y x) l.

(** The sum over the samples of their joint confusion matrices. *)
Definition sum_of_joint_cms (c : config) (dataset : list sample) : matrix :=
  foldl add2 (Np.zeros2 (nbr_class c) (nbr_class c)) (joint_cm c <$> dataset).

(** The nonzero pixels of channel [i] in one mask and in all masks. *)
Definition positive_pixels_of (i : nat) (s : sample) : Z :=
  Np.count_nonzero (Np.flatten (default [] (Np.channel i (mask s)))).
Definition positive_pixels (i : nat) (dataset : list sample) : Z :=
  foldr Z.add 0%Z (positive_pixels_of i <$> dataset).

(** The positive-pixel count of every class, by class index. *)
Definition positive_counts (c : config) (dataset : list sample) : list Z :=
  (λ i, positive_pixels i dataset) <$> seq 0 (nbr_class c).

(** The dictionary that holds for every class its positive-pixel count. *)
Definition true_counts (c : config) (dataset : list sample) : gmap string Z :=
  list_to_map (zip (class_labels c) (positive_counts c dataset)).







(** The guard of lines 205: the operating threshold, at class index 0. *)
Definition macro_guard (c : config) (i : nat) (thr : Q) : bool :=
  Qeq_bool thr (threshold c) && Nat.eqb i 0.


(** The object with its per-patch cells completed by those of [d] and
    with another value of [vect_classes]; the accumulators are kept. *)
Definition rebase (d : gmap (nat * string) cell) (v : gmap string vects)
    (st : state) : state :=
  {| df_dataset := df_dataset st ∪ d;
     cms_one_class := cms_one_class st;
     dict_prob_true := dict_prob_true st;
     dict_prob_pred := dict_prob_pred st;
     dict_hist_counts := dict_hist_counts st;
     dict_bin_sums := dict_bin_sums st;
     dict_bin_true := dict_bin_true st;
     dict_bin_total := dict_bin_total st;
     counts_sample_per_class := counts_sample_per_class st;
     vect_classes := v |}.

Definition rebase_loop (d : gmap (nat * string) cell) (v : gmap string vects)
    (ls : loop_state) : loop_state := (ls.1, rebase d v ls.2).

(** The accumulators of two objects are the same. *)
Definition same_accumulators (st st' : state) : Prop :=
  df_dataset st = df_dataset st'
  ∧ cms_one_class st = cms_one_class st'
  ∧ dict_hist_counts st = dict_hist_counts st'
  ∧ dict_bin_sums st = dict_bin_sums st'
  ∧ dict_bin_true st = dict_bin_true st'
  ∧ dict_bin_total st = dict_bin_total st'
  ∧ counts_sample_per_class st = counts_sample_per_class st'.

(** One pass of the binary calibration update over all the samples, and
    [k] such passes. *)
Definition calibrate_all (c : Metrics_Binary.config)
    (cal : Metrics_Binary.calibration) : option Metrics_Binary.calibration :=
  Py.for_each
    (λ cal (mp : array2 * array2),
       Metrics_Binary.calibration_update c mp.1 mp.2 cal)
    (zip (Metrics_Binary.masks c) (Metrics_Binary.preds c)) cal.

Definition calibrate_times (c : Metrics_Binary.config) (k : nat)
    (cal : Metrics_Binary.calibration) : option Metrics_Binary.calibration :=
  Nat.iter k (λ acc, acc ≫= calibrate_all c) (Some cal).

(** The binary configuration with another operating threshold. *)
Definition with_threshold (thr : Q) (c : Metrics_Binary.config)
  : Metrics_Binary.config :=
  {| Metrics_Binary.masks := Metrics_Binary.masks c;
     Metrics_Binary.preds := Metrics_Binary.preds c;
     Metrics_Binary.nbr_class := Metrics_Binary.nbr_class c;
     Metrics_Binary.threshold := thr;
     Metrics_Binary.threshold_range := Metrics_Binary.threshold_range c;
     Metrics_Binary.bins := Metrics_Binary.bins c;
     Metrics_Binary.in_prob_range := Metrics_Binary.in_prob_range c;
     Metrics_Binary.max_pixel_value := Metrics_Binary.max_pixel_value c |}.

End Spec.

(** ** Sample inputs *)

Module Examples.
Import Metrics_Multiclass.

(** Two classes, three thresholds around the operating threshold. *)
Definition two_classes : config :=
  {| class_labels := ["a"; "b"];
     threshold := (1 # 2)%Q;
     threshold_range := [(1 # 4)%Q; (1 # 2)%Q; (3 # 4)%Q];
     bins := [0%Q; (1 # 2)%Q; 1%Q];
     in_prob_range := true;
     max_pixel_value := 255%Q;
     weighted := false;
     weights := [1%Q; 1%Q];
     get_metrics_per_patch := true |}.

(** The same with user weights 1 and 2. *)
Definition two_classes_weighted : config :=
  {| class_labels := ["a"; "b"];
     threshold := (1 # 2)%Q;
     threshold_range := [(1 # 4)%Q; (1 # 2)%Q; (3 # 4)%Q];
     bins := [0%Q; (1 # 2)%Q; 1%Q];
     in_prob_range := true;
     max_pixel_value := 255%Q;
     weighted := true;
     weights := [1%Q; 2%Q];
     get_metrics_per_patch := true |}.

(** Three classes, no user weights. *)
Definition three_classes : config :=
  {| class_labels := ["a"; "b"; "c"];
     threshold := (1 # 2)%Q;
     threshold_range := [(1 # 4)%Q; (1 # 2)%Q; (3 # 4)%Q];
     bins := [0%Q; (1 # 2)%Q; 1%Q];
     in_prob_range := true;
     max_pixel_value := 255%Q;
     weighted := false;
     weights := [1%Q; 1%Q; 1%Q];
     get_metrics_per_patch := false |}.

(** A 2 x 2 patch of two channels whose prediction is its mask. *)
Definition patch : sample :=
  {| mask := [[[0; 1]; [1; 0]]; [[1; 0]; [0; 1]]]%Q;
     pred := [[[0; 1]; [1; 0]]; [[1; 0]; [0; 1]]]%Q;
     name_file := "patch_1.tif" |}.

(** A 2 x 2 patch whose soft prediction misses one pixel of class "a". *)
Definition soft_patch : sample :=
  {| mask := [[[1; 0]; [1; 0]]; [[0; 1]; [0; 1]]]%Q;
     pred := [[[(3 # 4); (1 # 4)]; [(1 # 4); (3 # 4)]];
              [[(1 # 4); (3 # 4)]; [(1 # 4); (3 # 4)]]]%Q;
     name_file := "patch_2.tif" |}.



(** Joint confusion matrices: two classes with one error, three classes
    with one error. *)
Definition cm2 : matrix := [[1; 1]; [0; 2]]%Q.
Definition cm3 : matrix := [[1; 1; 0]; [0; 1; 0]; [0; 0; 1]]%Q.

(** A binary run whose threshold range repeats its first value. *)
Definition binary_repeated : Metrics_Binary.config :=
  {| Metrics_Binary.masks := [[[1; 0]; [0; 1]]]%Q;
     Metrics_Binary.preds := [[[(3 # 4); (1 # 4)]; [(1 # 4); (3 # 4)]]]%Q;
     Metrics_Binary.nbr_class := 2;
     Metrics_Binary.threshold := (1 # 2)%Q;
     Metrics_Binary.threshold_range := [(1 # 4)%Q; (1 # 4)%Q; (1 # 2)%Q];
     Metrics_Binary.bins := [0%Q; (1 # 2)%Q; 1%Q];
     Metrics_Binary.in_prob_range := true;
     Metrics_Binary.max_pixel_value := 255%Q |}.

(** A binary run whose operating threshold is not in the range. *)
Definition binary_plain : Metrics_Binary.config :=
  {| Metrics_Binary.masks := [[[1; 0]; [0; 1]]]%Q;
     Metrics_Binary.preds := [[[(3 # 4); (1 # 4)]; [(1 # 4); (3 # 4)]]]%Q;
     Metrics_Binary.nbr_class := 2;
     Metrics_Binary.threshold := (1 # 3)%Q;
     Metrics_Binary.threshold_range := [(1 # 4)%Q; (1 # 2)%Q; (3 # 4)%Q];
     Metrics_Binary.bins := [0%Q; (1 # 2)%Q; 1%Q];
     Metrics_Binary.in_prob_range := true;
     Metrics_Binary.max_pixel_value := 255%Q |}.

End Examples.

(** * Properties *)

(** ** Loops *)

Section loops.
Context {S A : Type}.
Implicit Types (body : S → A → option S) (l : list A).

Lemma for_each_app body l1 l2 s :
  Py.for_each body (l1 ++ l2) s = Py.for_each body l1 s ≫= Py.for_each body l2.
Proof.
  revert s. induction l1 as [|x l1 IH]; intros s; simpl; [done|].
  destruct (body s x); simpl; [apply IH|done].
Qed.

(** An invariant indexed by the items already visited. *)
Lemma for_each_inv body (I : list A → S → Prop) l s s' :
  I [] s →
  (∀ pre x s1 s2, x ∈ l → I pre s1 → body s1 x = Some s2 → I (pre ++ [x]) s2) →
  Py.for_each body l s = Some s' → I l s'.
Proof.
  intros H0 Hstep.
  assert (∀ post pre s, I pre s → pre ++ post = l →
            Py.for_each body post s = Some s' → I l s') as G.
  { induction post as [|x post IH]; intros pre s1 HI Hl Hrun; simpl in Hrun.
    - rewrite app_nil_r in Hl. by simplify_eq.
    - destruct (body s1 x) as [s2|] eqn:Hb; [|done]. simpl in Hrun.
      apply (IH (pre ++ [x]) s2); [|by rewrite <- app_assoc|done].
      apply (Hstep pre x s1 s2); [|done|done]. subst l. set_solver. }
  intros Hrun. by apply (G l [] s).
Qed.

(** A component of the state that every iteration updates by [g]. *)
Lemma for_each_proj {B} body (π : S → B) (g : B → A → B) l s s' :
  (∀ s x s', x ∈ l → body s x = Some s' → π s' = g (π s) x) →
  Py.for_each body l s = Some s' → π s' = foldl g (π s) l.
Proof.
  revert s. induction l as [|x l IH]; intros s Hb H; simpl in *; [by simplify_eq|].
  destruct (body s x) as [s1|] eqn:E; [|done]. simpl in H.
  rewrite <- (Hb s x s1); [|set_solver|done]. apply IH; [|done].
  intros. eapply Hb; [set_solver|done].
Qed.

Lemma foldl_const {B} (m : B) l : foldl (λ m _, m) m l = m.
Proof. by induction l. Qed.
End loops.

Section enumerate.
Context {A : Type}.

Lemma enumerate_from_lookup (l : list A) n i x :
  l !! i = Some x → Py.enumerate_from n l !! i = Some (n + i, x).
Proof.
  revert n i. induction l as [|y l IH]; intros n [|i] H; simplify_eq/=.
  - by rewrite Nat.add_0_r.
  - rewrite (IH (S n) i H). f_equal. f_equal. lia.
Qed.

Lemma enumerate_from_index n (l : list A) p :
  p ∈ Py.enumerate_from n l → n ≤ p.1.
Proof.
  revert n. induction l as [|x l IH]; intros n H; simpl in *;
    [by apply elem_of_nil in H|].
  apply elem_of_cons in H as [->|H]; [done|]. apply IH in H. lia.
Qed.

Lemma enumerate_from_snd n (l : list A) : (Py.enumerate_from n l).*2 = l.
Proof. revert n. induction l; intros n; simpl; [done|]. by f_equal. Qed.
End enumerate.



Import Metrics Metrics_Multiclass Spec.

#[local] Arguments macro_update : simpl never.
#[local] Arguments one_vs_rest_update : simpl never.
#[local] Arguments calibration_update : simpl never.
#[local] Arguments patch_row : simpl never.
#[local] Arguments Py.get_loc : simpl never.

(** ** Dictionaries filled by a loop over the class labels *)

(** A loop that stores [f i] under the [i]-th key. *)
Lemma for_each_insert {V} (f : nat → option V) (keys : list string) n
    (d0 : gmap string V) :
  (∀ i, i < length keys → is_Some (f (n + i))) →
  ∃ d, Py.for_each (λ d '(i, k), o ← f i; Some (<[k := o]> d))
                   (Py.enumerate_from n keys) d0 = Some d
       ∧ (∀ k, k ∉ keys → d !! k = d0 !! k)
       ∧ (NoDup keys → ∀ i k, keys !! i = Some k → d !! k = f (n + i)).
Proof.
  revert n d0. induction keys as [|k keys IH]; intros n d0 Hf; simpl.
  - exists d0. split_and!; [done|done|]. intros _ i k H. done.
  - destruct (Hf 0) as [o Ho]; [simpl; lia|]. rewrite Nat.add_0_r in Ho.
    rewrite Ho. simpl.
    destruct (IH (S n) (<[k := o]> d0)) as (d & Hd & Hout & Hin).
    { intros i Hi. replace (S n + i) with (n + S i) by lia. apply Hf. simpl. lia. }
    exists d. split_and!; [done| |].
    + intros k' Hk'. rewrite Hout; [|set_solver]. rewrite lookup_insert_ne; [done|set_solver].
    + intros Hnd i k' Hk'. apply NoDup_cons in Hnd as [Hk Hnd].
      destruct i as [|i]; simplify_eq/=.
      * rewrite Hout; [|done]. rewrite lookup_insert_eq. by rewrite Nat.add_0_r.
      * rewrite (Hin Hnd i k' Hk'). f_equal. lia.
Qed.


(** ** Matrices *)

Lemma column_is_Some n (cm : matrix) i :
  Forall (λ r : list Q, length r = n) cm → i < n → is_Some (Np.column i cm).
Proof.
  intros Hcm Hi. unfold Np.column. induction Hcm as [|r cm Hr _ IH]; simpl; [by eexists|].
  destruct (lookup_lt_is_Some_2 r i) as [x Hx]; [lia|].
  rewrite Hx. simpl. destruct IH as [col Hcol]. rewrite Hcol. by eexists.
Qed.

Lemma obs_of_class_is_Some n cm i :
  square n cm → i < n → is_Some (obs_of_class cm i).
Proof.
  intros [Hlen Hrows] Hi. unfold obs_of_class, Np.item, Np.row.
  destruct (lookup_lt_is_Some_2 cm i) as [r Hr]; [lia|].
  rewrite Hr. simpl.
  assert (length r = n) as Hrl by (eapply (Forall_lookup_1 _ _ _ _ Hrows Hr)).
  destruct (lookup_lt_is_Some_2 r i) as [x Hx]; [lia|].
  rewrite Hx. simpl.
  destruct (column_is_Some n cm i Hrows Hi) as [col Hcol]. rewrite Hcol. simpl.
  by eexists.
Qed.

Lemma iadd_zip_with a b r : Np.iadd a b = Some r → r = zip_with Qplus a b.
Proof. unfold Np.iadd. case_decide; [|done]. by intros [= <-]. Qed.

Lemma iadd2_add2 a b r : Np.iadd2 a b = Some r → r = add2 a b.
Proof.
  revert b r. induction a as [|x a IH]; intros [|y b] r H; simplify_eq/=; [done|].
  destruct (Np.iadd x y) as [z|] eqn:Hz; [|done]. simpl in H.
  destruct (Np.iadd2 a b) as [w|] eqn:Hw; [|done]. simpl in H. simplify_eq.
  unfold add2. simpl. f_equal; [by apply iadd_zip_with|by apply IH].
Qed.

(** ** The zero guard *)

Lemma guarded_div_zero num den : (den == 0)%Q → guarded_div num den = 0%Q.
Proof. intros H. unfold guarded_div. apply Qeq_bool_iff in H. by rewrite H. Qed.

(** ** Calibration curves *)

Lemma select_indices (mask : list bool) (a : array1) sel :
  Np.select mask a = Some sel →
  length mask = length a
  ∧ sel = (nth0 a) <$> List.filter (λ b, default false (mask !! b)) (seq 0 (length a)).
Proof.
  unfold Np.select. case_decide as Hlen; [|done]. intros [= <-]. split; [done|].
  assert (∀ (pre : list Q) (prem : list bool), length pre = length prem →
            fst <$> List.filter snd (zip a mask)
            = (nth0 (pre ++ a)) <$> List.filter (λ b, default false ((prem ++ mask) !! b))
                                       (seq (length pre) (length a))) as G.
  { revert mask Hlen. induction a as [|x a IH]; intros [|m mask] Hlen pre prem Hp;
      simplify_eq/=; [done|].
    assert ((prem ++ m :: mask) !! length pre = Some m) as ->.
    { rewrite Hp. by rewrite list_lookup_middle. }
    simpl.
    specialize (IH mask Hlen (pre ++ [x]) (prem ++ [m])).
    rewrite !length_app in IH. simpl in IH. rewrite <- !app_assoc in IH. simpl in IH.
    replace (length pre + 1) with (S (length pre)) in IH by lia.
    destruct m; simpl.
    - unfold nth0 at 1. rewrite list_lookup_middle; [|done]. simpl.
      f_equal. apply IH. lia.
    - apply IH. lia. }
  apply (G [] []). done.
Qed.

Lemma nonzero_mask_lookup (bin_total : array1) b :
  b < length bin_total →
  default false (((λ x, negb (Qeq_bool x 0)) <$> bin_total) !! b)
  = negb (Qeq_bool (nth0 bin_total b) 0).
Proof.
  intros Hb. rewrite list_lookup_fmap. unfold nth0.
  destruct (lookup_lt_is_Some_2 bin_total b Hb) as [x ->]. done.
Qed.

Lemma filter_ext_in {A} (f g : A → bool) l :
  (∀ x, x ∈ l → f x = g x) → List.filter f l = List.filter g l.
Proof.
  induction l as [|x l IH]; intros H; simpl; [done|].
  rewrite (H x); [|set_solver]. rewrite IH; [done|]. intros y Hy. apply H. set_solver.
Qed.

Lemma select_nonzero (bin_total a sel : array1) :
  Np.select ((λ x, negb (Qeq_bool x 0)) <$> bin_total) a = Some sel →
  length a = length bin_total ∧ sel = nth0 a <$> nonzero_bins bin_total.
Proof.
  intros H. apply select_indices in H as [Hlen ->]. rewrite length_fmap in Hlen.
  split; [done|]. unfold nonzero_bins. rewrite Hlen. f_equal.
  apply filter_ext_in. intros b Hb. apply elem_of_seq in Hb.
  apply nonzero_mask_lookup. lia.
Qed.

Lemma divide_fmap {A} (f g : A → Q) (l : list A) :
  Np.divide (f <$> l) (g <$> l) = (λ b, f b / g b)%Q <$> l.
Proof. unfold Np.divide. induction l; simpl; [done|]. by f_equal. Qed.

Lemma calibration_curve_spec bin_true bin_sums bin_total prob_true prob_pred :
  Metrics_Multiclass.calibration_curve bin_true bin_sums bin_total
    = Some (prob_true, prob_pred) →
  length bin_true = length bin_total ∧ length bin_sums = length bin_total
  ∧ prob_true = curve bin_true bin_total
  ∧ prob_pred = curve bin_sums bin_total.
Proof.
  unfold Metrics_Multiclass.calibration_curve. intros H.
  destruct (Np.select _ bin_true) as [t|] eqn:Ht; [|done].
  destruct (Np.select _ bin_total) as [n|] eqn:Hn; [|done].
  destruct (Np.select _ bin_sums) as [s|] eqn:Hs; [|done].
  simpl in H. simplify_eq.
  apply select_nonzero in Ht as [? ->], Hn as [? ->], Hs as [? ->].
  unfold curve. by rewrite !divide_fmap.
Qed.

Lemma nonzero_bins_elem (bin_total : array1) b :
  b ∈ nonzero_bins bin_total ↔ b < length bin_total ∧ ¬ (nth0 bin_total b == 0)%Q.
Proof.
  unfold nonzero_bins. rewrite list_elem_of_In, filter_In, <- list_elem_of_In, elem_of_seq.
  rewrite negb_true_iff, <- not_true_iff_false, Qeq_bool_iff. intuition lia.
Qed.

Lemma finalize_class_bins c st class_j st' :
  finalize_class c st class_j = Some st' →
  dict_bin_true st' = dict_bin_true st ∧ dict_bin_sums st' = dict_bin_sums st
  ∧ dict_bin_total st' = dict_bin_total st
  ∧ counts_sample_per_class st' = counts_sample_per_class st
  ∧ df_dataset st' = df_dataset st
  ∧ (∃ prob_true prob_pred bt bs bn,
       dict_bin_true st !! class_j = Some bt
       ∧ dict_bin_sums st !! class_j = Some bs
       ∧ dict_bin_total st !! class_j = Some bn
       ∧ calibration_curve bt bs bn = Some (prob_true, prob_pred)
       ∧ dict_prob_true st' = <[class_j := prob_true]> (dict_prob_true st)
       ∧ dict_prob_pred st' = <[class_j := prob_pred]> (dict_prob_pred st)).
Proof.
  unfold finalize_class. intros H.
  destruct (dict_bin_total st !! class_j) as [bn|] eqn:Hbn; [|done].
  destruct (dict_bin_true st !! class_j) as [bt|] eqn:Hbt; [|done].
  destruct (dict_bin_sums st !! class_j) as [bs|] eqn:Hbs; [|done].
  simpl in H.
  destruct (calibration_curve bt bs bn) as [[pt pp]|] eqn:Hc; [|done].
  simpl in H.
  destruct (loc_column _ _ _) as [col|]; [|done]. simpl in H.
  destruct (mapM _ col) as [raws|]; [|done]. simpl in H.
  injection H as <-. simpl. split_and!; try done.
  by exists pt, pp, bt, bs, bn.
Qed.

Lemma finalize_curves c st st' :
  finalize c st = Some st' →
  dict_bin_true st' = dict_bin_true st ∧ dict_bin_sums st' = dict_bin_sums st
  ∧ dict_bin_total st' = dict_bin_total st
  ∧ counts_sample_per_class st' = counts_sample_per_class st
  ∧ df_dataset st' = df_dataset st
  ∧ ∀ class_j, class_j ∈ class_labels c → curve_of st' class_j.
Proof.
  unfold finalize. intros H.
  destruct (applymap_metrics _) as [cms|]; [|done]. simpl in H.
  revert H.
  apply (for_each_inv (finalize_class c)
    (λ pre s,
       dict_bin_true s = dict_bin_true st ∧ dict_bin_sums s = dict_bin_sums st
       ∧ dict_bin_total s = dict_bin_total st
       ∧ counts_sample_per_class s = counts_sample_per_class st
       ∧ df_dataset s = df_dataset st
       ∧ ∀ class_j, class_j ∈ pre → curve_of s class_j)).
  - simpl. split_and!; try done. intros ? ?%elem_of_nil. done.
  - intros pre x s1 s2 _ (E1 & E2 & E3 & E4 & E5 & Hpre) Hstep.
    apply finalize_class_bins in Hstep
      as (F1 & F2 & F3 & F4 & F5 & pt & pp & bt & bs & bn & Ht & Hs & Hn & Hc & Hpt & Hpp).
    split_and!; try congruence.
    intros l Hl. destruct (decide (l = x)) as [->|Hne].
    + exists bt, bs, bn. apply calibration_curve_spec in Hc as (? & ? & -> & ->).
      rewrite F1, F2, F3, Hpt, Hpp, !lookup_insert_eq. done.
    + apply elem_of_app in Hl as [Hl|Hl]; [|set_solver].
      destruct (Hpre l Hl) as (bt' & bs' & bn' & ? & ? & ? & ? & ? & ? & ?).
      exists bt', bs', bn'. rewrite F1, F2, F3, Hpt, Hpp.
      rewrite !lookup_insert_ne by done. done.
Qed.

(** ** The macro matrix during the scan *)

Lemma macro_update_cm c idx s cm st cm' st' :
  macro_update c idx s (cm, st) = Some (cm', st') → cm' = add2 cm (joint_cm c s).
Proof.
  unfold macro_update. intros H.
  destruct (Np.iadd2 cm (joint_cm c s)) as [m|] eqn:Hm; [|done]. simpl in H.
  destruct (if get_metrics_per_patch c then _ else _); [|done]. simpl in H.
  simplify_eq. by apply iadd2_add2.
Qed.

Lemma threshold_body_cm c idx s i class_i ls thr ls' :
  threshold_body c idx s i class_i ls thr = Some ls' →
  ls'.1 = if macro_guard c i thr then add2 ls.1 (joint_cm c s) else ls.1.
Proof.
  destruct ls as [cm st], ls' as [cm' st']. unfold threshold_body, macro_guard. intros H.
  destruct (one_vs_rest_update _ _ _ _ _ _) as [st1|]; [|done]. simpl in H.
  destruct (Qeq_bool thr (threshold c) && (i =? 0)) eqn:G; simpl in *.
  - destruct (macro_update c idx s (cm, st1)) as [[cm2 st2]|] eqn:Hm; [|done].
    simpl in H. apply macro_update_cm in Hm as ->.
    destruct (if Qeq_bool thr (threshold c) then _ else _); [|done]. simpl in H. by simplify_eq.
  - destruct (if Qeq_bool thr (threshold c) then _ else _); [|done]. simpl in H. by simplify_eq.
Qed.

Lemma foldl_guard_none c i (J m : matrix) l :
  (i ≠ 0 ∨ occurrences (threshold c) l = 0) →
  foldl (λ m thr, if macro_guard c i thr then add2 m J else m) m l = m.
Proof.
  induction l as [|x l IH]; intros H; simpl; [done|].
  destruct (macro_guard c i x) eqn:G.
  - exfalso. unfold macro_guard in G. apply andb_true_iff in G as [G1 G2].
    apply Nat.eqb_eq in G2. destruct H as [H|H]; [done|].
    unfold occurrences, Np.count in H. simpl in H. by rewrite G1 in H.
  - apply IH. destruct H as [H|H]; [by left|right].
    unfold occurrences, Np.count in *. simpl in H.
    destruct (Qeq_bool x (threshold c)); simpl in H; [done|done].
Qed.

Lemma foldl_guard_once c (J m : matrix) l :
  occurrences (threshold c) l = 1 →
  foldl (λ m thr, if macro_guard c 0 thr then add2 m J else m) m l = add2 m J.
Proof.
  revert m. unfold occurrences, Np.count.
  induction l as [|x l IH]; intros m H; simpl in *; [done|].
  unfold macro_guard at 2. simpl. rewrite andb_true_r.
  destruct (Qeq_bool x (threshold c)); simpl in *.
  - apply foldl_guard_none. right. unfold occurrences, Np.count. lia.
  - by apply IH.
Qed.

Lemma class_body_cm c idx s ls ic ls' :
  class_body c idx s ls ic = Some ls' →
  ls'.1 = foldl (λ m thr, if macro_guard c ic.1 thr then add2 m (joint_cm c s) else m)
                ls.1 (threshold_range c).
Proof.
  unfold class_body. apply (for_each_proj _ fst).
  intros ls1 thr ls2 _. apply threshold_body_cm.
Qed.

Lemma sample_body_cm c ls ds ls' :
  occurrences (threshold c) (threshold_range c) = 1 →
  sample_body c ls ds = Some ls' →
  ls'.1 = match class_labels c with
          | [] => ls.1
          | _ => add2 ls.1 (joint_cm c ds.2)
          end.
Proof.
  intros Hocc. unfold sample_body, Py.enumerate.
  destruct (class_labels c) as [|l0 labels]; simpl; [by intros [= <-]|].
  destruct (class_body c ds.1 ds.2 ls (0, l0)) as [ls1|] eqn:H0; [|done]. simpl.
  intros H. apply class_body_cm in H0. simpl in H0.
  rewrite foldl_guard_once in H0 by done. rewrite <- H0.
  eapply (for_each_proj _ fst (λ m _, m)) in H.
  - by rewrite H, foldl_const.
  - intros ls2 ic ls3 Hic Hb. apply class_body_cm in Hb. rewrite Hb.
    apply foldl_guard_none. left. apply enumerate_from_index in Hic. lia.
Qed.

Lemma alloc_cm c self ls : alloc c self = Some ls → ls.1 = Np.zeros2 (nbr_class c) (nbr_class c).
Proof.
  unfold alloc. destruct (match class_labels c with [] => _ | _ => _ end); [|done].
  simpl. by intros [= <-].
Qed.

(** ** The positive-pixel counters during the scan *)











(** ** Rounding and the report tables *)

Lemma rint_proper x y : (x == y)%Q → Np.rint x = Np.rint y.
Proof.
  intros H. unfold Np.rint. rewrite (Qfloor_comp _ _ H).
  assert ((x - inject_Z (Qfloor y) ?= 1 # 2) = (y - inject_Z (Qfloor y) ?= 1 # 2))%Q as ->; [|done].
  apply Qcompare_comp; [by rewrite H|done].
Qed.

Lemma round_proper x y d : (x == y)%Q → Np.round x d = Np.round y d.
Proof.
  intros H. unfold Np.round. f_equal. f_equal. apply rint_proper. by rewrite H.
Qed.

Lemma set_cell_lookup {V} (k : string * string) (v : option V)
    (df : gmap (string * string) V) (k' : string * string) :
  set_cell k v df !! k' = if decide (k = k') then v else df !! k'.
Proof.
  unfold set_cell. destruct v; case_decide; subst;
    rewrite ?lookup_insert_eq, ?lookup_insert_ne, ?lookup_delete_eq, ?lookup_delete_ne; done.
Qed.







#[local] Arguments Qplus : simpl never.
#[local] Arguments Qmult : simpl never.
#[local] Arguments Qminus : simpl never.
#[local] Arguments Qdiv : simpl never.
#[local] Arguments Qopp : simpl never.
#[local] Arguments Qinv : simpl never.
#[local] Arguments inject_Z : simpl never.

(** ** The weighted sums of the macro table *)



Lemma sum_inject (ns : list Z) :
  (Np.sum (inject_Z <$> ns) == inject_Z (foldr Z.add 0%Z ns))%Q.
Proof.
  induction ns as [|n ns IH]; csimpl; [done|]. by rewrite IH, inject_Z_plus.
Qed.

(** [sum(d.values())] of a dictionary that holds [vs] under distinct
    keys. *)
Lemma sum_values_list_to_map (keys : list string) (vs : list Z) :
  NoDup keys → length keys = length vs →
  Py.sum_values (list_to_map (zip keys vs)) = foldr Z.add 0%Z vs.
Proof.
  unfold Py.sum_values. revert vs.
  induction keys as [|k keys IH]; intros [|v vs] Hnd Hlen; simplify_eq/=; [done|].
  apply NoDup_cons in Hnd as [Hk Hnd].
  rewrite map_fold_insert_L.
  - by rewrite IH.
  - intros. lia.
  - apply not_elem_of_list_to_map_1. rewrite fst_zip by lia. done.
Qed.



(** *** The counters when the scan ends *)




(** *** A common factor of the counters *)


Lemma lookup_zip_fmap (keys : list string) (f : Z → Z) (vs : list Z) l :
  (list_to_map (zip keys (f <$> vs)) : gmap string Z) !! l
  = f <$> (list_to_map (zip keys vs) : gmap string Z) !! l.
Proof.
  revert vs. induction keys as [|k keys IH]; intros [|v vs]; csimpl;
    rewrite ?lookup_empty; try done.
  destruct (decide (k = l)) as [->|Hne].
  - by rewrite !lookup_insert_eq.
  - rewrite !lookup_insert_ne by done. apply IH.
Qed.

Lemma inject_Z_nonzero (z : Z) : z ≠ 0%Z → Qeq_bool (inject_Z z) 0 = false.
Proof.
  intros Hz. apply not_true_iff_false. intros E. apply Qeq_bool_iff in E.
  unfold Qeq, inject_Z in E. simpl in E. lia.
Qed.


Lemma sum_values_true_counts c dataset :
  NoDup (class_labels c) →
  Py.sum_values (true_counts c dataset) = foldr Z.add 0%Z (positive_counts c dataset).
Proof.
  intros Hnd. unfold true_counts. apply sum_values_list_to_map; [done|].
  unfold positive_counts. by rewrite !length_fmap, length_seq.
Qed.







(** ** The micro confusion matrix *)

Lemma sum_app (a b : list Q) : (Np.sum (a ++ b) == Np.sum a + Np.sum b)%Q.
Proof. induction a as [|x a IH]; csimpl; [ring|]. rewrite IH. ring. Qed.

Lemma sum_concat (m : list (list Q)) :
  (Np.sum2 m == Np.sum (Np.sum <$> m))%Q.
Proof.
  unfold Np.sum2, Np.flatten. induction m as [|r m IH]; csimpl; [done|].
  by rewrite sum_app, IH.
Qed.

Section sums.
Context {A : Type}.
Implicit Types (f g h : A → Q) (l : list A).

Lemma sum_ext f g l :
  (∀ x, x ∈ l → (f x == g x)%Q) → (Np.sum (f <$> l) == Np.sum (g <$> l))%Q.
Proof.
  induction l as [|x l IH]; intros H; csimpl; [done|].
  rewrite (H x), IH; [done| |set_solver]. intros. apply H. set_solver.
Qed.

Lemma sum_minus f g l :
  (Np.sum ((λ x, f x - g x)%Q <$> l) == Np.sum (f <$> l) - Np.sum (g <$> l))%Q.
Proof. induction l as [|x l IH]; csimpl; [ring|]. rewrite IH. ring. Qed.

Lemma sum_plus f g l :
  (Np.sum ((λ x, f x + g x)%Q <$> l) == Np.sum (f <$> l) + Np.sum (g <$> l))%Q.
Proof. induction l as [|x l IH]; csimpl; [ring|]. rewrite IH. ring. Qed.

Lemma sum_tn (t : Q) f g h l :
  (Np.sum ((λ x, t - f x - g x + h x)%Q <$> l)
   == inject_Z (Z.of_nat (length l)) * t
      - Np.sum (f <$> l) - Np.sum (g <$> l) + Np.sum (h <$> l))%Q.
Proof.
  induction l as [|x l IH]; csimpl.
  - change (inject_Z (Z.of_nat 0)) with 0%Q. ring.
  - rewrite IH, Nat2Z.inj_succ. unfold Z.succ. rewrite inject_Z_plus.
    change (inject_Z 1) with 1%Q. ring.
Qed.
End sums.

Lemma fmap_seq_lookup {A B} (f : A → B) (d : A) (l : list A) :
  (λ i, f (default d (l !! i))) <$> seq 0 (length l) = f <$> l.
Proof.
  apply list_eq. intros i. rewrite !list_lookup_fmap.
  destruct (decide (i < length l)) as [Hi|Hi].
  - rewrite lookup_seq_lt by done. simpl.
    destruct (lookup_lt_is_Some_2 l i Hi) as [x ->]. done.
  - rewrite lookup_seq_ge by lia. rewrite lookup_ge_None_2 by lia. done.
Qed.

(** In a matrix with [n] columns the sums of the columns add up to the sum
    of all cells. *)
Lemma sum_columns n (cm : matrix) :
  Forall (λ r : list Q, length r = n) cm →
  (Np.sum ((λ j, Np.sum ((λ r : list Q, nth0 r j) <$> cm)) <$> seq 0 n)
   == Np.sum2 cm)%Q.
Proof.
  intros H. rewrite sum_concat. induction H as [|r cm Hr _ IH]; csimpl.
  - clear. induction (seq 0 n) as [|j l IH]; csimpl; [done|]. rewrite IH. ring.
  - rewrite <- IH. rewrite (sum_plus (λ j, nth0 r j)). apply Qplus_comp; [|done].
    rewrite <- Hr. unfold nth0. by rewrite (fmap_seq_lookup (λ x, x) 0%Q r), list_fmap_id.
Qed.

Lemma column_rect n (cm : matrix) j :
  Forall (λ r : list Q, length r = n) cm → j < n →
  Np.column j cm = Some ((λ r : list Q, nth0 r j) <$> cm).
Proof.
  intros H Hj. unfold Np.column. apply mapM_Some. apply Forall2_fmap_r.
  apply Forall_Forall2_diag. eapply Forall_impl; [done|]. simpl.
  intros r Hr. unfold nth0. destruct (lookup_lt_is_Some_2 r j) as [x ->]; [lia|done].
Qed.

Lemma obs_of_class_square n cm i :
  square n cm → i < n → obs_of_class cm i = Some (obs_at cm i).
Proof.
  intros [Hlen Hrows] Hi. unfold obs_of_class, obs_at, Np.item, Np.row, nth0.
  destruct (lookup_lt_is_Some_2 cm i) as [r Hr]; [lia|]. rewrite Hr. simpl.
  assert (length r = n) as Hrl by (eapply (Forall_lookup_1 _ _ _ _ Hrows Hr)).
  destruct (lookup_lt_is_Some_2 r i) as [x Hx]; [lia|]. rewrite Hx. simpl.
  by rewrite (column_rect n cm i Hrows Hi).
Qed.

Lemma sum_axis0_obs (os : list obs) :
  ∃ a b c d,
    sum_axis0 (cm_of_obs <$> os) = [[a; b]; [c; d]]
    ∧ (a == Np.sum (tp <$> os))%Q ∧ (b == Np.sum (fn <$> os))%Q
    ∧ (c == Np.sum (fp <$> os))%Q ∧ (d == Np.sum (tn <$> os))%Q.
Proof.
  induction os as [|o os (a & b & c & d & E & Ha & Hb & Hc & Hd)]; csimpl.
  - by exists 0%Q, 0%Q, 0%Q, 0%Q.
  - unfold sum_axis0 in *. csimpl. rewrite E.
    exists (tp o + a)%Q, (fn o + b)%Q, (fp o + c)%Q, (tn o + d)%Q.
    split; [done|]. by rewrite Ha, Hb, Hc, Hd.
Qed.

(** What [get_metrics_from_cm] returns without user weights, for distinct
    labels and a square matrix. *)
Lemma get_metrics_from_cm_unweighted c cm :
  NoDup (class_labels c) → square (nbr_class c) cm → weighted c = false →
  let per_class := obs_at cm <$> seq 0 (nbr_class c) in
  ∃ by_class cm_micro micro,
    get_metrics_from_cm c cm
    = Some (by_class, micro, cm_of_obs <$> per_class, cm_micro)
    ∧ cm_micro = sum_axis0 (cm_of_obs <$> per_class)
    ∧ metrics_of_cm cm_micro = Some micro.
Proof.
  intros Hnd Hsq Hw per_class.
  unfold get_metrics_from_cm, get_obs_by_class_from_cm, Py.enumerate.
  destruct (for_each_insert (obs_of_class cm) (class_labels c) 0 ∅)
    as (d & -> & _ & Hin).
  { intros j Hj. simpl. rewrite (obs_of_class_square _ _ _ Hsq Hj). by eexists. }
  cbn [mbind option_bind].
  assert (mapM (λ class_i, d !! class_i) (class_labels c) = Some per_class) as ->.
  { apply mapM_Some. apply Forall2_same_length_lookup_2.
    - unfold per_class. by rewrite length_fmap, length_seq.
    - intros i l o Hl Ho. rewrite (Hin Hnd i l Hl). simpl.
      assert (i < nbr_class c) as Hi by (by eapply lookup_lt_Some).
      rewrite (obs_of_class_square _ _ _ Hsq Hi). unfold per_class in Ho.
      rewrite list_lookup_fmap, lookup_seq_lt in Ho by done. by simplify_eq/=. }
  cbn [mbind option_bind]. rewrite Hw. cbn [mbind option_bind].
  destruct (sum_axis0_obs per_class) as (a & b & c' & d' & E & _).
  rewrite E. cbn. by eexists _, _, _.
Qed.

Lemma guarded_div_proper n n' d d' :
  (n == n')%Q → (d == d')%Q → (guarded_div n d == guarded_div n' d')%Q.
Proof.
  intros Hn Hd. unfold guarded_div.
  assert (Qeq_bool d 0 = Qeq_bool d' 0) as ->.
  { apply eq_true_iff_eq. rewrite !Qeq_bool_iff. by rewrite Hd. }
  destruct (Qeq_bool d' 0); [done|]. by rewrite Hn, Hd.
Qed.

Lemma guarded_div_double n d :
  (guarded_div (2 * n) (2 * d) == guarded_div n d)%Q.
Proof.
  unfold guarded_div. destruct (Qeq_bool d 0) eqn:E.
  - apply Qeq_bool_iff in E. assert (Qeq_bool (2 * d) 0 = true) as ->; [|done].
    apply Qeq_bool_iff. rewrite E. ring.
  - assert (¬ (d == 0)%Q) as Hd by (intros ?%Qeq_bool_iff; congruence).
    assert (Qeq_bool (2 * d) 0 = false) as ->.
    { apply not_true_iff_false. intros H%Qeq_bool_iff. apply Hd. lra. }
    by field.
Qed.

(** The F1 score of equal precision and recall is that common value. *)
Lemma f1_of_equal p r :
  (p == r)%Q → (guarded_div (2 * p * r) (p + r) == p)%Q.
Proof.
  intros H. unfold guarded_div. destruct (Qeq_bool (p + r) 0) eqn:E.
  - apply Qeq_bool_iff in E. rewrite <- H in E.
    lra.
  - assert (¬ (p + r == 0)%Q) as Hd by (intros ?%Qeq_bool_iff; congruence).
    rewrite <- H in *. field. intros Hp. apply Hd. lra.
Qed.

Lemma trace_square n cm :
  square n cm →
  (trace cm == Np.sum ((λ i, nth0 (default [] (cm !! i)) i) <$> seq 0 n))%Q.
Proof.
  intros [Hlen Hrows]. unfold trace. rewrite Hlen.
  assert (∀ l, (∀ i, i ∈ l → i < n) →
            omap (λ i, Np.item i i cm) l
            = (λ i, nth0 (default [] (cm !! i)) i) <$> l) as ->; [|done|].
  - induction l as [|i l IH]; intros Hl; csimpl; [done|].
    assert (i < n) as Hi by (apply Hl; set_solver).
    destruct (lookup_lt_is_Some_2 cm i) as [r Hr]; [lia|].
    assert (length r = n) as Hrl by (eapply (Forall_lookup_1 _ _ _ _ Hrows Hr)).
    destruct (lookup_lt_is_Some_2 r i) as [x Hx]; [lia|].
    unfold Np.item, nth0. rewrite Hr. simpl. rewrite Hx. simpl.
    f_equal. apply IH. intros. apply Hl. set_solver.
  - intros i Hi%elem_of_seq. lia.
Qed.

(** The four cells of the unweighted micro matrix. *)
Lemma micro_cells n cm :
  square n cm →
  let os := obs_at cm <$> seq 0 n in
  (Np.sum (tp <$> os) == trace cm)%Q
  ∧ (Np.sum (fn <$> os) == Np.sum2 cm - trace cm)%Q
  ∧ (Np.sum (fp <$> os) == Np.sum2 cm - trace cm)%Q
  ∧ (Np.sum (tn <$> os)
     == inject_Z (Z.of_nat n) * Np.sum2 cm - 2 * Np.sum2 cm + trace cm)%Q.
Proof.
  intros Hsq os. pose proof Hsq as [Hlen Hrows].
  assert (Np.sum ((λ i, Np.sum (default [] (cm !! i))) <$> seq 0 n) == Np.sum2 cm)%Q
    as Hr.
  { rewrite <- Hlen, (fmap_seq_lookup Np.sum [] cm). by rewrite sum_concat. }
  pose proof (sum_columns n cm Hrows) as Hc.
  pose proof (trace_square n cm Hsq) as Ht.
  unfold os. rewrite <- !list_fmap_compose. unfold compose, obs_at. simpl.
  split_and!.
  - by rewrite Ht.
  - rewrite (sum_minus (λ i, Np.sum (default [] (cm !! i)))), Hr, Ht. done.
  - rewrite (sum_minus (λ i, Np.sum ((λ r : list Q, nth0 r i) <$> cm))), Hc, Ht. done.
  - rewrite (sum_tn (Np.sum2 cm) (λ i, Np.sum (default [] (cm !! i)))
               (λ i, Np.sum ((λ r : list Q, nth0 r i) <$> cm))).
    rewrite Hr, Hc, <- Ht, length_seq. ring.
Qed.

(** C4, as amended.  Without user weights, for distinct labels and a
    square macro matrix, the metrics of the micro confusion matrix satisfy
    Precision == Recall == F1-Score == trace / total (the overall accuracy
    of the joint matrix, 0 for an empty matrix); the Accuracy entry equals
    them when there are two classes; and the micro report table holds
    Precision (as OA) and IoU only. *)
Theorem micro_metrics_without_weights c cm :
  NoDup (class_labels c) → square (nbr_class c) cm → weighted c = false →
  ∃ by_class micro cms cm_micro,
    get_metrics_from_cm c cm = Some (by_class, micro, cms, cm_micro)
    ∧ (Precision micro == Recall micro)%Q
    ∧ (Recall micro == F1_Score micro)%Q
    ∧ (Precision micro == guarded_div (trace cm) (Np.sum2 cm))%Q
    ∧ (nbr_class c = 2 → (Accuracy micro == Precision micro)%Q)
    ∧ (∀ st r,
         metrics_to_df_reports c st by_class micro = Some r →
         df_report_micro r
         = <[("Values", "IoU") := IoU micro]>
             (<[("Values", "OA") := Precision micro]> ∅)).
Proof.
  intros Hnd Hsq Hw.
  destruct (get_metrics_from_cm_unweighted c cm Hnd Hsq Hw)
    as (by_class & cm_micro & micro & Hget & Hmicro & Hm).
  eexists by_class, micro, _, cm_micro. split; [done|].
  destruct (sum_axis0_obs (obs_at cm <$> seq 0 (nbr_class c)))
    as (tp & fn & fp & tn & E & Htp & Hfn & Hfp & Htn).
  rewrite <- Hmicro in E. rewrite E in Hm. cbn in Hm. injection Hm as <-.
  destruct (micro_cells (nbr_class c) cm Hsq) as (Tp & Fn & Fp & Tn).
  cbv zeta in Tp, Fn, Fp, Tn. rewrite <- Htp in Tp. rewrite <- Hfn in Fn.
  rewrite <- Hfp in Fp. rewrite <- Htn in Tn.
  assert (Precision (get_metrics_from_obs tp fn fp tn)
          == guarded_div (trace cm) (Np.sum2 cm))%Q as HP.
  { cbn. apply guarded_div_proper; [done|]. rewrite Tp, Fp. ring. }
  assert (Recall (get_metrics_from_obs tp fn fp tn)
          == guarded_div (trace cm) (Np.sum2 cm))%Q as HR.
  { cbn. apply guarded_div_proper; [done|]. rewrite Tp, Fn. ring. }
  split_and!.
  - by rewrite HP, HR.
  - cbn [F1_Score get_metrics_from_obs]. rewrite f1_of_equal.
    + cbn in HP, HR. by rewrite HR, HP.
    + cbn in HP, HR. by rewrite HR, HP.
  - done.
  - intros HC. rewrite HP. cbn [Accuracy get_metrics_from_obs].
    rewrite <- (guarded_div_double (trace cm) (Np.sum2 cm)).
    apply guarded_div_proper.
    + rewrite Tp, Tn, HC. change (inject_Z (Z.of_nat 2)) with 2%Q. ring.
    + rewrite Tp, Fn, Fp, Tn, HC. change (inject_Z (Z.of_nat 2)) with 2%Q. ring.
  - intros st r Hr. unfold metrics_to_df_reports in Hr.
    apply bind_Some in Hr as (df & _ & Hr). cbv zeta in Hr.
    apply bind_Some in Hr as (dfm & _ & Hr). by injection Hr as <-.
Qed.

(** C4 as stated fails twice: with three classes and no weights the
    Accuracy of the micro matrix is 5/6 while Precision, Recall and F1 are
    3/4; with two classes and the weights 1 and 2, Precision is 5/7 and
    Recall 5/6. *)
Lemma micro_metrics_not_all_equal :
  (∃ by_class micro cms cm_micro,
     get_metrics_from_cm Examples.three_classes Examples.cm3
     = Some (by_class, micro, cms, cm_micro)
     ∧ (Precision micro == 3 # 4)%Q ∧ (Recall micro == 3 # 4)%Q
     ∧ (F1_Score micro == 3 # 4)%Q ∧ (Accuracy micro == 5 # 6)%Q
     ∧ ¬ (Precision micro == Accuracy micro)%Q)
  ∧ (∃ by_class micro cms cm_micro,
       get_metrics_from_cm Examples.two_classes_weighted Examples.cm2
       = Some (by_class, micro, cms, cm_micro)
       ∧ (Precision micro == 5 # 7)%Q ∧ (Recall micro == 5 # 6)%Q
       ∧ ¬ (Precision micro == Recall micro)%Q).
Proof.
  split.
  - eexists _, _, _, _. split; [vm_compute; reflexivity|].
    split_and!; try (vm_compute; reflexivity). vm_compute. discriminate.
  - eexists _, _, _, _. split; [vm_compute; reflexivity|].
    split_and!; try (vm_compute; reflexivity). vm_compute. discriminate.
Qed.

(** ** Running the scan again

    The scan reads of the object only its per-patch table, and of that
    table only cells it has written itself: cells that were there before
    are carried along, and so is the stale [vect_classes]. *)

Section frame.
Context {S A : Type} (F : S → S).

(** A loop commutes with a change of state that its body commutes with. *)
Lemma for_each_frame (body : S → A → option S) l s s' :
  (∀ s x s', x ∈ l → body s x = Some s' → body (F s) x = Some (F s')) →
  Py.for_each body l s = Some s' → Py.for_each body l (F s) = Some (F s').
Proof.
  revert s. induction l as [|x l IH]; intros s Hb H; simpl in *; [by simplify_eq|].
  apply bind_Some in H as (s1 & Hs1 & H).
  rewrite (Hb s x s1) by (done || set_solver). simpl.
  apply IH; [|done]. intros. apply Hb; [set_solver|done].
Qed.
End frame.

(** A loop that succeeds still succeeds, with the same result, when its
    body is replaced by one that agrees with it wherever it succeeds. *)
Lemma for_each_mono {S A} (f g : S → A → option S) l s s' :
  (∀ s x s', f s x = Some s' → g s x = Some s') →
  Py.for_each f l s = Some s' → Py.for_each g l s = Some s'.
Proof.
  intros Hfg. revert s. induction l as [|x l IH]; intros s H; simpl in *; [done|].
  apply bind_Some in H as (s1 & Hs1 & H). rewrite (Hfg _ _ _ Hs1). simpl. by apply IH.
Qed.

Lemma read_num_union df d k x :
  read_num df k = Some x → read_num (df ∪ d) k = Some x.
Proof.
  unfold read_num. destruct (df !! k) as [[?|y]|] eqn:E; try done.
  intros [= <-]. by rewrite (lookup_union_Some_l _ _ _ _ E).
Qed.

Lemma patch_row_frame c idx name cm df df' d :
  patch_row c idx name cm df = Some df' →
  patch_row c idx name cm (df ∪ d) = Some (df' ∪ d).
Proof.
  unfold patch_row. intros H.
  apply bind_Some in H as ([[[by_class micro] ?] ?] & -> & H).
  cbn [mbind option_bind] in *. cbv zeta in *.
  apply bind_Some in H as (df1 & H1 & H).
  rewrite !insert_union_l.
  apply (for_each_frame (λ m, m ∪ d)) in H1.
  - rewrite H1. cbn [mbind option_bind].
    apply (for_each_frame (λ m, m ∪ d)) in H; [done|].
    intros m metric m' _ Hm.
    apply bind_Some in Hm as (mean_metric & Hmean & Hm). injection Hm as <-.
    apply (for_each_mono _
             (λ mean_metric '(class_name, weight),
                x ← read_num (m ∪ d) (idx, column_name class_name metric);
                Some (mean_metric + weight * x)%Q)) in Hmean.
    + rewrite Hmean. cbn [mbind option_bind]. f_equal.
      case_bool_decide; by rewrite !insert_union_l.
    + intros mm [cn w] mm' Hx. apply bind_Some in Hx as (x & Hx & Hmm).
      by rewrite (read_num_union _ _ _ _ Hx).
  - intros m label m' _ Hm. apply (for_each_frame (λ m, m ∪ d)) in Hm; [done|].
    intros m1 nc m2 _ Hs. apply bind_Some in Hs as (t & Ht & Hs).
    apply bind_Some in Hs as (x & Hx & Hs). injection Hs as <-.
    rewrite Ht. cbn [mbind option_bind]. rewrite Hx. cbn [mbind option_bind].
    by rewrite insert_union_l.
Qed.

Ltac step E := rewrite E; cbn [mbind option_bind]; cbv zeta.

Lemma one_vs_rest_update_frame c i class_i s thr st st' d v :
  one_vs_rest_update c i class_i s thr st = Some st' →
  one_vs_rest_update c i class_i s thr (rebase d v st) = Some (rebase d v st').
Proof.
  unfold one_vs_rest_update. intros H.
  apply bind_Some in H as (class_mask & E1 & H).
  apply bind_Some in H as (class_pred & E2 & H).
  apply bind_Some in H as (counts & E3 & H).
  cbv zeta in H. apply bind_Some in H as (cms & E4 & H). injection H as <-.
  cbn [rebase counts_sample_per_class cms_one_class].
  step E1. step E2. step E3. step E4. done.
Qed.

Lemma calibration_update_frame c i class_i s st st' d v :
  calibration_update c i class_i s st = Some st' →
  calibration_update c i class_i s (rebase d v st) = Some (rebase d v st').
Proof.
  unfold calibration_update. intros H.
  apply bind_Some in H as (pred_hist & E1 & H).
  apply bind_Some in H as (mask_hist & E2 & H). cbv zeta in H.
  apply bind_Some in H as (h & E3 & H).
  apply bind_Some in H as (hc & E4 & H).
  apply bind_Some in H as (b1 & E5 & H).
  apply bind_Some in H as (bs & E6 & H).
  apply bind_Some in H as (b2 & E7 & H).
  apply bind_Some in H as (bt & E8 & H).
  apply bind_Some in H as (b3 & E9 & H).
  apply bind_Some in H as (bn & E10 & H). injection H as <-.
  cbn [rebase dict_hist_counts dict_bin_sums dict_bin_true dict_bin_total].
  step E1. step E2. step E3. step E4. step E5. step E6. step E7. step E8.
  step E9. step E10. done.
Qed.

Lemma macro_update_frame c idx s ls ls' d v :
  macro_update c idx s ls = Some ls' →
  macro_update c idx s (rebase_loop d v ls) = Some (rebase_loop d v ls').
Proof.
  destruct ls as [cm st]. unfold macro_update, rebase_loop. intros H. cbv zeta in *.
  apply bind_Some in H as (cm' & Hcm & H).
  apply bind_Some in H as (df & Hdf & H). injection H as <-.
  cbn [fst snd rebase df_dataset]. rewrite Hcm. cbn [mbind option_bind].
  destruct (get_metrics_per_patch c).
  - by rewrite (patch_row_frame _ _ _ _ _ _ d Hdf).
  - by injection Hdf as <-.
Qed.

Lemma threshold_body_frame c idx s i class_i ls thr ls' d v :
  threshold_body c idx s i class_i ls thr = Some ls' →
  threshold_body c idx s i class_i (rebase_loop d v ls) thr
  = Some (rebase_loop d v ls').
Proof.
  destruct ls as [cm st]. unfold threshold_body, rebase_loop. intros H.
  apply bind_Some in H as (st1 & H1 & H).
  apply bind_Some in H as ([cm2 st2] & H2 & H).
  apply bind_Some in H as (st3 & H3 & H). injection H as <-.
  simpl. rewrite (one_vs_rest_update_frame _ _ _ _ _ _ _ d v H1). simpl.
  assert (∀ o : option loop_state,
            o = Some (cm2, rebase d v st2) →
            o ≫= (λ '(cm_macro0, st0),
                    (if Qeq_bool thr (threshold c)
                     then calibration_update c i class_i s st0
                     else Some st0)
                    ≫= λ st4 : state, Some (cm_macro0, st4))
            = Some (cm2, rebase d v st3)) as G.
  { intros o ->. simpl. destruct (Qeq_bool thr (threshold c)).
    - by rewrite (calibration_update_frame _ _ _ _ _ _ d v H3).
    - by simplify_eq. }
  apply G. destruct (Qeq_bool thr (threshold c) && (i =? 0)).
  - by apply (macro_update_frame c idx s (cm, st1) (cm2, st2) d v).
  - by simplify_eq.
Qed.

Lemma sample_body_frame c ls ds ls' d v :
  sample_body c ls ds = Some ls' →
  sample_body c (rebase_loop d v ls) ds = Some (rebase_loop d v ls').
Proof.
  unfold sample_body. apply for_each_frame. intros ls1 ic ls2 _.
  unfold class_body. apply for_each_frame. intros ls3 thr ls4 _.
  apply threshold_body_frame.
Qed.

(** The loop started from an object whose table has the cells of [d]
    besides those of [self], and any [vect_classes]. *)
Lemma scan_loop_frame c self self' dataset ls d :
  df_dataset self' = df_dataset self ∪ d →
  scan_loop c self dataset = Some ls →
  scan_loop c self' dataset = Some (rebase_loop d (vect_classes self') ls).
Proof.
  intros Hdf H. unfold scan_loop in *.
  apply bind_Some in H as (ls0 & Ha & H).
  assert (alloc c self' = Some (rebase_loop d (vect_classes self') ls0)) as ->.
  { unfold alloc in *. destruct (match class_labels c with [] => _ | _ => _ end);
      [|done].
    simpl in *. injection Ha as <-. unfold rebase_loop, rebase. simpl.
    by rewrite Hdf. }
  simpl. revert H. apply for_each_frame. intros ls1 ds ls2 _.
  apply sample_body_frame.
Qed.

(** [finalize] does not read [vect_classes]. *)
Lemma finalize_rebase c st v :
  finalize c (rebase ∅ v st) = finalize c st.
Proof.
  unfold finalize, rebase. simpl. by rewrite (right_id_L ∅ (∪)).
Qed.

Lemma rebase_same_accumulators d v st :
  df_dataset st ∪ d = df_dataset st → same_accumulators (rebase d v st) st.
Proof. intros H. unfold same_accumulators, rebase. simpl. by rewrite H. Qed.

Lemma rebase_idemp st v :
  rebase (df_dataset st) v st = rebase ∅ v st.
Proof.
  unfold rebase. f_equal. by rewrite (right_id_L ∅ (∪)), (idemp_L (∪)).
Qed.

(** C7.  The scan of a freshly constructed object (its per-patch table
    still empty) being done, a second scan of the same dataset on the same
    object, and the scan of any other fresh object with the same
    configuration, return the same macro matrix and leave the same object;
    the accumulators the loop builds (per-patch rows, 2x2 matrices,
    calibration sums and counts, positive-pixel counters) are the same. *)
Theorem scan_twice c dataset self st cm :
  df_dataset self = ∅ →
  scan_dataset c self dataset = Some (st, cm) →
  ∀ self', self' = st ∨ df_dataset self' = ∅ →
    scan_dataset c self' dataset = Some (st, cm)
    ∧ ∃ acc acc',
        scan_loop c self dataset = Some (cm, acc)
        ∧ scan_loop c self' dataset = Some (cm, acc')
        ∧ same_accumulators acc' acc.
Proof.
  intros Hfresh H self' Hself'. unfold scan_dataset in H.
  apply bind_Some in H as ([cm0 acc] & Hloop & H). simpl in H.
  apply bind_Some in H as (st1 & Hfin & H). simplify_eq.
  assert (df_dataset st = df_dataset acc) as Hdf.
  { by apply finalize_curves in Hfin as (_ & _ & _ & _ & -> & _). }
  assert (∃ d, df_dataset self' = df_dataset self ∪ d
               ∧ rebase d (vect_classes self') acc
                 = rebase ∅ (vect_classes self') acc) as (d & Hd & Hr).
  { destruct Hself' as [->|Hself'].
    - exists (df_dataset acc). split.
      + by rewrite Hfresh, (left_id_L ∅ (∪)).
      + apply rebase_idemp.
    - exists ∅. split; [|done]. by rewrite Hself', Hfresh, (left_id_L ∅ (∪)). }
  pose proof (scan_loop_frame c self self' dataset (cm, acc) d Hd Hloop) as Hloop'.
  unfold rebase_loop in Hloop'. simpl in Hloop'. rewrite Hr in Hloop'.
  split.
  - unfold scan_dataset. rewrite Hloop'. simpl.
    rewrite finalize_rebase, Hfin. done.
  - exists acc, (rebase ∅ (vect_classes self') acc). split_and!; [done|done|].
    apply rebase_same_accumulators. by rewrite (right_id_L ∅ (∪)).
Qed.

(** ** The binary scanner: when the calibration sums are updated *)

#[local] Arguments Metrics_Binary.calibration_update : simpl never.

(** A component of the state that every iteration updates by a step that
    may raise. *)
Lemma for_each_proj_opt {S A B} (body : S → A → option S) (π : S → B)
    (g : B → A → option B) l s s' :
  (∀ s x s', x ∈ l → body s x = Some s' → g (π s) x = Some (π s')) →
  Py.for_each body l s = Some s' → Py.for_each g l (π s) = Some (π s').
Proof.
  revert s. induction l as [|x l IH]; intros s Hb H; simpl in *; [by simplify_eq|].
  apply bind_Some in H as (s1 & Hs1 & H).
  rewrite (Hb s x s1) by (done || set_solver). simpl.
  apply IH; [|done]. intros. eapply Hb; [set_solver|done].
Qed.

Lemma binary_sample_body_cal c thr st mp st' first :
  Metrics_Binary.threshold_range c !! 0 = Some first →
  Metrics_Binary.sample_body c thr st mp = Some st' →
  (if Qeq_bool thr first
   then Metrics_Binary.calibration_update c mp.1 mp.2 st.2
   else Some st.2) = Some st'.2.
Proof.
  intros Hfirst. destruct st as [cms cal], mp as [mask pred].
  unfold Metrics_Binary.sample_body. cbv zeta. intros H.
  apply bind_Some in H as (old & _ & H).
  apply bind_Some in H as (new & _ & H).
  rewrite Hfirst in H. simpl in H.
  apply bind_Some in H as (cal' & Hcal & H). injection H as <-. done.
Qed.

Lemma for_each_skip {S A} (l : list A) (s : S) :
  Py.for_each (λ s _, Some s) l s = Some s.
Proof. by induction l. Qed.

Lemma binary_threshold_body_cal c st thr st' first :
  Metrics_Binary.threshold_range c !! 0 = Some first →
  Metrics_Binary.threshold_body c st thr = Some st' →
  (if Qeq_bool thr first then calibrate_all c st.2 else Some st.2) = Some st'.2.
Proof.
  intros Hfirst. destruct st as [t cal]. unfold Metrics_Binary.threshold_body.
  cbv zeta. intros H.
  apply bind_Some in H as ([cms cal'] & Hloop & H).
  apply bind_Some in H as (cm & _ & H).
  apply bind_Some in H as (m & _ & H). injection H as <-. simpl.
  apply (for_each_proj_opt _ snd
           (λ cal (mp : array2 * array2),
              if Qeq_bool thr first
              then Metrics_Binary.calibration_update c mp.1 mp.2 cal
              else Some cal)) in Hloop.
  - simpl in Hloop. unfold calibrate_all.
    destruct (Qeq_bool thr first); [done|]. by rewrite for_each_skip in Hloop.
  - intros s1 mp s2 _ Hs. by eapply binary_sample_body_cal.
Qed.

Lemma iter_bind_None {A} (f : A → option A) k :
  Nat.iter k (λ acc, acc ≫= f) None = None.
Proof. induction k as [|k IH]; simpl; [done|]. by rewrite IH. Qed.

(** The threshold loop passes over the samples once for every threshold
    that equals the first one. *)
Lemma thresholds_iter c first l cal :
  Py.for_each (λ cal thr, if Qeq_bool thr first then calibrate_all c cal else Some cal)
              l cal
  = calibrate_times c (occurrences first l) cal.
Proof.
  unfold calibrate_times, occurrences, Np.count. revert cal.
  induction l as [|thr l IH]; intros cal; simpl; [done|].
  destruct (Qeq_bool thr first); simpl.
  - rewrite <- Nat.iter_succ, Nat.iter_succ_r. simpl.
    destruct (calibrate_all c cal) as [cal1|]; simpl; [apply IH|].
    by rewrite iter_bind_None.
  - apply IH.
Qed.

(** What the guard of line 70 lets through.  It compares values, so when
    the threshold loop ends the calibration accumulators have been
    updated, for every sample, once per threshold of the range whose value
    equals the first one: once per sample, as the comment of line 69
    intends, only when that value is not repeated; the operating threshold
    plays no part. *)
Lemma calibration_updated_per_first_threshold c t cal cal0 first :
  Metrics_Binary.threshold_range c !! 0 = Some first →
  Metrics_Binary.alloc c = Some cal0 →
  Metrics_Binary.threshold_loop c = Some (t, cal) →
  calibrate_times c (occurrences first (Metrics_Binary.threshold_range c)) cal0
  = Some cal
  ∧ (occurrences first (Metrics_Binary.threshold_range c) = 1 →
     calibrate_all c cal0 = Some cal)
  ∧ ∀ thr, ∃ t', Metrics_Binary.threshold_loop (with_threshold thr c) = Some (t', cal).
Proof.
  intros Hfirst Ha H.
  assert (∀ c' t' cal',
            Metrics_Binary.threshold_range c' !! 0 = Some first →
            Metrics_Binary.alloc c' = Some cal0 →
            Metrics_Binary.threshold_loop c' = Some (t', cal') →
            calibrate_times c' (occurrences first (Metrics_Binary.threshold_range c'))
                            cal0 = Some cal') as G.
  { clear. intros c t cal Hfirst Ha H. unfold Metrics_Binary.threshold_loop in H.
    rewrite Ha in H. simpl in H.
    apply (for_each_proj_opt _ snd
             (λ cal thr, if Qeq_bool thr first then calibrate_all c cal else Some cal))
      in H.
    - simpl in H. by rewrite thresholds_iter in H.
    - intros s1 thr s2 _ Hs. by eapply binary_threshold_body_cal. }
  pose proof (G c t cal Hfirst Ha H) as Hcal. split_and!; [done| |].
  - intros Hone. rewrite Hone in Hcal. done.
  - intros thr. unfold Metrics_Binary.threshold_loop in *.
    change (Metrics_Binary.alloc (with_threshold thr c)) with (Metrics_Binary.alloc c).
    rewrite Ha in *. simpl in *. eexists. exact H.
Qed.

(** C10.  The calibration accumulators are meant to be updated once per
    sample (line 69: "only once"), and the code misses that when the first
    threshold is repeated: with the range 1/4, 1/4, 1/2 and one sample of
    four pixels the run returns with the bin counts 4, 4, 0, twice the
    counts 2, 2, 0 that one update of the sample gives. *)
Lemma calibration_updated_twice :
  ∃ r cal0 once,
    Metrics_Binary.get_metrics_by_threshold Examples.binary_repeated = Some r
    ∧ Metrics_Binary.alloc Examples.binary_repeated = Some cal0
    ∧ calibrate_all Examples.binary_repeated cal0 = Some once
    ∧ Metrics_Binary.bin_total once = [2; 2; 0]%Q
    ∧ Metrics_Binary.bin_total (Metrics_Binary.accumulated r) = [4; 4; 0]%Q
    ∧ Metrics_Binary.accumulated r ≠ once.
Proof.
  eexists _, _, _. split_and!; try (vm_compute; reflexivity).
  vm_compute. discriminate.
Qed.

(** ** The bit depth of [Statistics] *)

Lemma depth_dict_cases tag v :
  Statistics.depth_dict !! tag = Some v →
  (tag, v) ∈ [("keep", 1%Z); ("8 bits", 255%Z); ("12 bits", 4095%Z);
              ("14 bits", 16383%Z); ("16 bits", 65535%Z)].
Proof. apply elem_of_list_to_map_2. Qed.

Lemma depth_dict_positive tag v :
  Statistics.depth_dict !! tag = Some v → (0 < v)%Z.
Proof.
  intros H%depth_dict_cases. rewrite !elem_of_cons, elem_of_nil in H.
  destruct H as [H|[H|[H|[H|[H|[]]]]]]; by simplify_eq.
Qed.

Lemma resolve_bit_depth_known tag :
  tag ∈ dom Statistics.depth_dict → Statistics.resolve_bit_depth tag = (tag, []).
Proof. intros H. unfold Statistics.resolve_bit_depth. by rewrite bool_decide_eq_true_2. Qed.

Lemma resolve_bit_depth_unknown tag :
  tag ∉ dom Statistics.depth_dict →
  Statistics.resolve_bit_depth tag = (Statistics.BIT_DEPTH, [Statistics.warning]).
Proof. intros H. unfold Statistics.resolve_bit_depth. by rewrite bool_decide_eq_false_2. Qed.

Lemma get_bins_is_Some tag nbr_bins bins :
  tag ∈ dom Statistics.depth_dict → is_Some (Statistics.get_bins tag nbr_bins bins).
Proof.
  intros [v Hv]%elem_of_dom. unfold Statistics.get_bins, Statistics.max_pixel_value.
  rewrite Hv. simpl. apply depth_dict_positive in Hv.
  assert (Qeq_bool (inject_Z v) 0 = false) as ->; [|by eexists].
  apply inject_Z_nonzero. lia.
Qed.

(** C8.  A bit-depth tag outside the dictionary does not make the
    construction fail: it is replaced by "8 bits" (divisor 255) with one
    warning, and the object built is the one built for "8 bits"; for a tag
    of the dictionary the divisor is the mapped value, with no warning;
    the dictionary is keep: 1, 8 bits: 255, 12 bits: 4095, 14 bits: 16383,
    16 bits: 65535. *)
Theorem bit_depth_fallback :
  (∀ tag,
     tag ∉ dom Statistics.depth_dict →
     Statistics.resolve_bit_depth tag = ("8 bits", [Statistics.warning])
     ∧ Statistics.max_pixel_value (Statistics.resolve_bit_depth tag).1
       = Some 255%Z
     ∧ ∀ dataset_len bins nbr_bins batch_size num_workers,
         Statistics.init dataset_len bins nbr_bins tag batch_size num_workers
         = (λ r : Statistics.t * list string, (r.1, [Statistics.warning]))
           <$> Statistics.init dataset_len bins nbr_bins "8 bits"
                               batch_size num_workers)
  ∧ (∀ tag v,
       Statistics.depth_dict !! tag = Some v →
       Statistics.resolve_bit_depth tag = (tag, [])
       ∧ Statistics.max_pixel_value (Statistics.resolve_bit_depth tag).1
         = Some v)
  ∧ (∀ tag dataset_len bins nbr_bins batch_size num_workers,
       (0 < batch_size ≤ Z.of_nat dataset_len)%Z →
       ∃ self log,
         Statistics.init dataset_len bins nbr_bins tag batch_size num_workers
         = Some (self, log)
         ∧ Statistics.bit_depth self = (Statistics.resolve_bit_depth tag).1
         ∧ is_Some (Statistics.to_pixel_input_range self 1))
  ∧ map_to_list Statistics.depth_dict
    ≡ₚ [("keep", 1%Z); ("8 bits", 255%Z); ("12 bits", 4095%Z);
        ("14 bits", 16383%Z); ("16 bits", 65535%Z)].
Proof.
  split_and!.
  - intros tag Htag. rewrite (resolve_bit_depth_unknown tag Htag).
    split_and!; [done|done|].
    intros dataset_len bins nbr_bins batch_size num_workers. unfold Statistics.init.
    rewrite (resolve_bit_depth_unknown tag Htag).
    rewrite (resolve_bit_depth_known "8 bits") by (by apply elem_of_dom; eexists).
    change Statistics.BIT_DEPTH with "8 bits".
    destruct (Statistics.get_bins "8 bits" nbr_bins bins) as [[b nb]|]; [|done].
    simpl. repeat case_match; done.
  - intros tag v Hv.
    rewrite (resolve_bit_depth_known tag) by (by apply elem_of_dom; eexists).
    done.
  - intros tag n bins nbr_bins bs nw [Hb1 Hb2]. unfold Statistics.init.
    assert ((Statistics.resolve_bit_depth tag).1 ∈ dom Statistics.depth_dict) as Hd.
    { unfold Statistics.resolve_bit_depth. case_bool_decide; [done|].
      by apply elem_of_dom; eexists. }
    destruct (Statistics.resolve_bit_depth tag) as [bd log]. simpl in Hd.
    destruct (get_bins_is_Some bd nbr_bins bins Hd) as [[b nb] ->]. simpl.
    rewrite (proj2 (Z.leb_le _ _) Hb2). simpl.
    rewrite (proj2 (Z.eqb_neq _ _)) by lia.
    eexists _, _. split_and!; [done|done|].
    unfold Statistics.to_pixel_input_range, Statistics.max_pixel_value. simpl.
    apply elem_of_dom in Hd as [v ->]. by eexists.
  - apply map_to_list_to_map. simpl.
    match goal with |- NoDup ?l => apply (bool_decide_unpack (NoDup l)) end.
    vm_compute. exact I.
Qed.

(** ** The claims on the observations, the zero guard, the curves and the
    macro matrix *)

(** C1.  For a C x C confusion matrix and distinct class labels, the
    quadruple [get_obs_by_class_from_cm] stores for class index [i] has
    tp = cm[i,i], fn = row sum - tp, fp = column sum - tp and
    tn = total - row sum - column sum + tp, so that tp + fn + fp + tn is
    the sum of all cells. *)
Theorem get_obs_by_class_from_cm_quadruple (c : config) (cm : matrix)
    (i : nat) (class_i : string) :
  NoDup (class_labels c) →
  square (nbr_class c) cm →
  class_labels c !! i = Some class_i →
  ∃ obs_by_class o cii row col,
    get_obs_by_class_from_cm c cm = Some obs_by_class
    ∧ obs_by_class !! class_i = Some o
    ∧ Np.item i i cm = Some cii ∧ Np.row i cm = Some row
    ∧ Np.column i cm = Some col
    ∧ tp o = cii
    ∧ fn o = (Np.sum row - cii)%Q
    ∧ fp o = (Np.sum col - cii)%Q
    ∧ tn o = (Np.sum2 cm - Np.sum row - Np.sum col + cii)%Q
    ∧ (tp o + fn o + fp o + tn o == Np.sum2 cm)%Q.
Proof.
  intros Hnd Hsq Hi.
  destruct (for_each_insert (obs_of_class cm) (class_labels c) 0 ∅)
    as (d & Hd & _ & Hin).
  { intros j Hj. by apply (obs_of_class_is_Some (nbr_class c)). }
  specialize (Hin Hnd i class_i Hi). simpl in Hin.
  assert (i < nbr_class c) as Hlt by (by eapply lookup_lt_Some).
  destruct (obs_of_class_is_Some _ cm i Hsq Hlt) as [o Ho].
  rewrite Ho in Hin. unfold obs_of_class in Ho.
  apply bind_Some in Ho as (cii & Hcii & Ho).
  apply bind_Some in Ho as (row & Hrow & Ho).
  apply bind_Some in Ho as (col & Hcol & Ho). injection Ho as <-.
  eexists d, _, cii, row, col. split_and!; try done.
  cbn [tp fn fp tn]. ring.
Qed.

(** C2.  Under the zero guard a metric whose denominator is exactly 0 is
    0, whatever the quadruple, and the metrics of (0, 0, 0, 0) are all 0;
    the function is total, so nothing is raised and every value is a
    number. *)
Theorem get_metrics_from_obs_zero_guard (tp fn fp tn : Q) :
  (∀ k den,
     denominators tp fn fp tn !! k = Some den → (den == 0)%Q →
     values (get_metrics_from_obs tp fn fp tn) !! k = Some 0%Q)
  ∧ length (denominators tp fn fp tn) = length metrics_names
  ∧ values (get_metrics_from_obs 0 0 0 0) = replicate (length metrics_names) 0%Q.
Proof.
  split_and!; [|done|reflexivity].
  intros k den Hk Hden.
  do 8 (destruct k as [|k];
        [cbn in Hk |- *; injection Hk as <-; f_equal; by apply guarded_div_zero|]).
  done.
Qed.

(** C3.  When the scan ends, the calibration curve of every class holds
    exactly the bins whose count is not zero, in order, with
    prob_true = true mass / count and prob_pred = prediction mass / count
    of the bin; the binary scanner exports its curve in the same way. *)
Theorem calibration_curve_keeps_nonzero_bins :
  (∀ c self dataset st cm class_j,
     scan_dataset c self dataset = Some (st, cm) →
     class_j ∈ class_labels c →
     ∃ bin_true bin_sums bin_total,
       dict_bin_true st !! class_j = Some bin_true
       ∧ dict_bin_sums st !! class_j = Some bin_sums
       ∧ dict_bin_total st !! class_j = Some bin_total
       ∧ length bin_true = length bin_total
       ∧ length bin_sums = length bin_total
       ∧ dict_prob_true st !! class_j = Some (curve bin_true bin_total)
       ∧ dict_prob_pred st !! class_j = Some (curve bin_sums bin_total))
  ∧ (∀ c r,
       Metrics_Binary.get_metrics_by_threshold c = Some r →
       let cal := Metrics_Binary.accumulated r in
       length (Metrics_Binary.bin_true cal) = length (Metrics_Binary.bin_total cal)
       ∧ length (Metrics_Binary.bin_sums cal) = length (Metrics_Binary.bin_total cal)
       ∧ Metrics_Binary.prob_true r
         = curve (Metrics_Binary.bin_true cal) (Metrics_Binary.bin_total cal)
       ∧ Metrics_Binary.prob_pred r
         = curve (Metrics_Binary.bin_sums cal) (Metrics_Binary.bin_total cal))
  ∧ (∀ mass bin_total,
       curve mass bin_total
       = (λ b, nth0 mass b / nth0 bin_total b)%Q <$> nonzero_bins bin_total)
  ∧ (∀ bin_total b,
       b ∈ nonzero_bins bin_total
       ↔ b < length bin_total ∧ ¬ (nth0 bin_total b == 0)%Q).
Proof.
  split_and!.
  - intros c self dataset st cm class_j Hscan Hl. unfold scan_dataset in Hscan.
    apply bind_Some in Hscan as ([cm' st0] & _ & Hscan). simpl in Hscan.
    apply bind_Some in Hscan as (st1 & Hfin & Hscan). simplify_eq.
    apply finalize_curves in Hfin as (_ & _ & _ & _ & _ & H).
    apply (H class_j Hl).
  - intros c r H. unfold Metrics_Binary.get_metrics_by_threshold in H.
    apply bind_Some in H as ([t cal] & _ & H). cbv zeta in H.
    apply bind_Some in H as (tr & Ht & H).
    apply bind_Some in H as (n & Hn & H).
    apply bind_Some in H as (s & Hs & H).
    apply bind_Some in H as (report & _ & H). injection H as <-. simpl.
    apply select_nonzero in Ht as [? ->], Hn as [? ->], Hs as [? ->].
    unfold curve. by rewrite !divide_fmap.
  - done.
  - apply nonzero_bins_elem.
Qed.

(** C6.  When the operating threshold occurs exactly once in the
    threshold range, the macro matrix returned by the scan is the sum over
    the samples of their joint (arg-max) confusion matrices: each is added
    once. *)
Theorem scan_dataset_macro_sum c self dataset st cm_macro :
  occurrences (threshold c) (threshold_range c) = 1 →
  scan_dataset c self dataset = Some (st, cm_macro) →
  cm_macro = sum_of_joint_cms c dataset.
Proof.
  intros Hocc H. unfold scan_dataset in H.
  apply bind_Some in H as ([cm st0] & Hloop & H). simpl in H.
  apply bind_Some in H as (st1 & _ & H). simplify_eq.
  unfold scan_loop in Hloop. apply bind_Some in Hloop as (ls0 & Ha & Hloop).
  apply alloc_cm in Ha. unfold sum_of_joint_cms. rewrite <- Ha.
  destruct (class_labels c) as [|l0 labels] eqn:Hlabels.
  - (* no class: the loop body is empty and every matrix is 0 x 0 *)
    eapply (for_each_proj _ fst (λ m _, m)) in Hloop.
    + simpl in Hloop. rewrite Hloop, foldl_const, Ha. unfold nbr_class.
      rewrite Hlabels. simpl. by induction (joint_cm c <$> dataset).
    + intros ls1 x ls2 _ Hb. apply sample_body_cm in Hb; [|done].
      by rewrite Hlabels in Hb.
  - eapply (for_each_proj _ fst (λ m ds, add2 m (joint_cm c ds.2))) in Hloop.
    + simpl in Hloop. rewrite Hloop.
      rewrite <- (enumerate_from_snd 0 dataset) at 2. unfold Py.enumerate.
      generalize (Py.enumerate_from 0 dataset) as l. generalize (ls0.1).
      intros m l. revert m. induction l as [|x l IH]; intros m; simpl; [done|].
      apply IH.
    + intros ls1 x ls2 _ Hb. apply sample_body_cm in Hb; [|done].
      by rewrite Hlabels in Hb.
Qed.

(** ** The theorems at sample inputs *)

(** The run returns: decided by running it. *)
Ltac returns := apply is_Some_alt; vm_compute; exact I.

Ltac by_computation :=
  match goal with
  | |- ?P => apply (bool_decide_unpack P); vm_compute; exact I
  end.

Lemma get_obs_by_class_from_cm_quadruple_witness :
  NoDup (class_labels Examples.two_classes)
  ∧ square (nbr_class Examples.two_classes) Examples.cm2
  ∧ class_labels Examples.two_classes !! 0 = Some "a"
  ∧ ∃ obs_by_class o cii row col,
      get_obs_by_class_from_cm Examples.two_classes Examples.cm2
      = Some obs_by_class
      ∧ obs_by_class !! "a" = Some o
      ∧ Np.item 0 0 Examples.cm2 = Some cii
      ∧ Np.row 0 Examples.cm2 = Some row
      ∧ Np.column 0 Examples.cm2 = Some col
      ∧ tp o = cii
      ∧ fn o = (Np.sum row - cii)%Q
      ∧ fp o = (Np.sum col - cii)%Q
      ∧ tn o = (Np.sum2 Examples.cm2 - Np.sum row - Np.sum col + cii)%Q
      ∧ (tp o + fn o + fp o + tn o == Np.sum2 Examples.cm2)%Q.
Proof.
  assert (NoDup (class_labels Examples.two_classes)) as H1 by by_computation.
  assert (square (nbr_class Examples.two_classes) Examples.cm2) as H2.
  { split; [reflexivity|]. repeat constructor. }
  split_and!; [exact H1|exact H2|reflexivity|].
  exact (get_obs_by_class_from_cm_quadruple
           Examples.two_classes Examples.cm2 0 "a" H1 H2 eq_refl).
Defined.

Lemma get_metrics_from_obs_zero_guard_witness :
  denominators 0 0 1 1 !! 2 = Some (0 + 0)%Q
  ∧ (0 + 0 == 0)%Q
  ∧ values (get_metrics_from_obs 0 0 1 1) !! 2 = Some 0%Q.
Proof.
  split_and!; [reflexivity|reflexivity|].
  exact (proj1 (get_metrics_from_obs_zero_guard 0 0 1 1) 2 (0 + 0)%Q
               eq_refl (Qeq_refl _)).
Defined.

Lemma calibration_curve_keeps_nonzero_bins_witness :
  is_Some (scan_dataset Examples.two_classes fresh [Examples.soft_patch])
  ∧ "a" ∈ class_labels Examples.two_classes
  ∧ (λ r, map Qred <$> dict_prob_true r.1 !! "a")
    <$> scan_dataset Examples.two_classes fresh [Examples.soft_patch]
    = Some (Some [(1 # 3)%Q; 1%Q])
  ∧ (λ r, map Qred <$> dict_prob_pred r.1 !! "a")
    <$> scan_dataset Examples.two_classes fresh [Examples.soft_patch]
    = Some (Some [(1 # 4)%Q; (3 # 4)%Q])
  ∧ ∀ st cm,
      scan_dataset Examples.two_classes fresh [Examples.soft_patch]
      = Some (st, cm) →
      ∃ bin_true bin_sums bin_total,
        dict_bin_true st !! "a" = Some bin_true
        ∧ dict_bin_sums st !! "a" = Some bin_sums
        ∧ dict_bin_total st !! "a" = Some bin_total
        ∧ length bin_true = length bin_total
        ∧ length bin_sums = length bin_total
        ∧ dict_prob_true st !! "a" = Some (curve bin_true bin_total)
        ∧ dict_prob_pred st !! "a" = Some (curve bin_sums bin_total).
Proof.
  assert ("a" ∈ class_labels Examples.two_classes) as H by by_computation.
  split_and!; [returns|exact H|vm_compute; reflexivity|vm_compute; reflexivity|].
  intros st cm E.
  exact (proj1 calibration_curve_keeps_nonzero_bins
           Examples.two_classes fresh [Examples.soft_patch] st cm "a" E H).
Defined.

Lemma micro_metrics_without_weights_witness :
  NoDup (class_labels Examples.two_classes)
  ∧ square (nbr_class Examples.two_classes) Examples.cm2
  ∧ weighted Examples.two_classes = false
  ∧ ∃ by_class micro cms cm_micro,
      get_metrics_from_cm Examples.two_classes Examples.cm2
      = Some (by_class, micro, cms, cm_micro)
      ∧ (Precision micro == Recall micro)%Q
      ∧ (Recall micro == F1_Score micro)%Q
      ∧ (Precision micro
         == guarded_div (trace Examples.cm2) (Np.sum2 Examples.cm2))%Q
      ∧ (nbr_class Examples.two_classes = 2
         → (Accuracy micro == Precision micro)%Q)
      ∧ (∀ st r,
           metrics_to_df_reports Examples.two_classes st by_class micro = Some r →
           df_report_micro r
           = <[("Values", "IoU") := IoU micro]>
               (<[("Values", "OA") := Precision micro]> ∅)).
Proof.
  assert (NoDup (class_labels Examples.two_classes)) as H1 by by_computation.
  assert (square (nbr_class Examples.two_classes) Examples.cm2) as H2.
  { split; [reflexivity|]. repeat constructor. }
  split_and!; [exact H1|exact H2|reflexivity|].
  exact (micro_metrics_without_weights Examples.two_classes Examples.cm2
           H1 H2 eq_refl).
Defined.


Lemma scan_dataset_macro_sum_witness :
  occurrences (threshold Examples.two_classes)
              (threshold_range Examples.two_classes) = 1
  ∧ is_Some (scan_dataset Examples.two_classes fresh
                          [Examples.patch; Examples.soft_patch])
  ∧ ∀ st cm,
      scan_dataset Examples.two_classes fresh
                   [Examples.patch; Examples.soft_patch] = Some (st, cm) →
      cm = sum_of_joint_cms Examples.two_classes
             [Examples.patch; Examples.soft_patch].
Proof.
  split_and!; [reflexivity|returns|]. intros st cm E.
  exact (scan_dataset_macro_sum Examples.two_classes fresh
           [Examples.patch; Examples.soft_patch] st cm eq_refl E).
Defined.

Lemma scan_twice_witness :
  df_dataset fresh = ∅
  ∧ is_Some (scan_dataset Examples.two_classes fresh [Examples.soft_patch])
  ∧ ∀ st cm,
      scan_dataset Examples.two_classes fresh [Examples.soft_patch]
      = Some (st, cm) →
      scan_dataset Examples.two_classes st [Examples.soft_patch] = Some (st, cm)
      ∧ ∃ acc acc',
          scan_loop Examples.two_classes fresh [Examples.soft_patch]
          = Some (cm, acc)
          ∧ scan_loop Examples.two_classes st [Examples.soft_patch]
            = Some (cm, acc')
          ∧ same_accumulators acc' acc.
Proof.
  split_and!; [reflexivity|returns|]. intros st cm E.
  exact (scan_twice Examples.two_classes [Examples.soft_patch] fresh st cm
           eq_refl E st (or_introl eq_refl)).
Defined.


Lemma bit_depth_fallback_witness :
  ("10 bits" ∉ dom Statistics.depth_dict)
  ∧ Statistics.resolve_bit_depth "10 bits" = ("8 bits", [Statistics.warning])
  ∧ Statistics.max_pixel_value (Statistics.resolve_bit_depth "10 bits").1
    = Some 255%Z
  ∧ ∀ dataset_len bins nbr_bins batch_size num_workers,
      Statistics.init dataset_len bins nbr_bins "10 bits" batch_size num_workers
      = (λ r : Statistics.t * list string, (r.1, [Statistics.warning]))
        <$> Statistics.init dataset_len bins nbr_bins "8 bits"
                            batch_size num_workers.
Proof.
  assert ("10 bits" ∉ dom Statistics.depth_dict) as H by by_computation.
  split; [exact H|]. exact (proj1 bit_depth_fallback "10 bits" H).
Defined.

